(** * miniq: a demo storefront (app.py) and its job-queue client (miniq.py)

    A shallow embedding of the two Python modules.  Python integers are [Z],
    [Decimal] amounts are rationals [Q], strings are [string] (ASCII),
    the insertion-ordered dictionaries [products] and [inventory] are
    association lists with unique keys, the dictionary [viewings], which is
    only read with [.get] and written with [[]=], is a [gmap].  Code that can
    raise returns a [result]; code that reads or writes the module-level
    dictionaries runs in a state-and-exception monad over the [Store]. *)

From Stdlib Require Import ZArith QArith Qround String Ascii List Lia Sorting.Sorted Permutation.
From stdpp Require Import gmap strings list fin_maps pretty.

Local Close Scope Q_scope.
Local Open Scope string_scope.
Local Open Scope Z_scope.

(* ===================================================================== *)
(** ** Exceptions and results *)
(* ===================================================================== *)

Inductive exception : Type :=
  | KeyError (key : string)
  | ValueError
  | ZeroDivisionError
  | HTTPError (status : Z)
  | TypeError.

Inductive result (A : Type) : Type :=
  | Ok (a : A)
  | Raise (e : exception).
Arguments Ok {A} a.
Arguments Raise {A} e.

(** A computation over a state [S] that may raise: the state reached when the
    exception is raised is kept, as the mutations of a Python function are. *)
Definition M (S A : Type) : Type := S -> result A * S.

Definition ret {S A} (a : A) : M S A := fun s => (Ok a, s).
Definition raise {S A} (e : exception) : M S A := fun s => (Raise e, s).
Definition bind {S A B} (m : M S A) (k : A -> M S B) : M S B :=
  fun s => match m s with
           | (Ok a, s') => k a s'
           | (Raise e, s') => (Raise e, s')
           end.
Definition lift {S A} (r : result A) : M S A := fun s => (r, s).
Definition gets {S A} (f : S -> A) : M S A := fun s => (Ok (f s), s).
Definition modify {S} (f : S -> S) : M S unit := fun s => (Ok tt, f s).

Declare Scope py_scope.
Delimit Scope py_scope with py.
Notation "x <~ m ;; k" := (bind m (fun x => k))
  (at level 100, m at next level, right associativity) : py_scope.
Notation "m ;;; k" := (bind m (fun _ => k))
  (at level 100, right associativity) : py_scope.
Local Open Scope py_scope.

(* ===================================================================== *)
(** ** Python dictionaries that keep insertion order *)
(* ===================================================================== *)

Definition dict (V : Type) : Type := list (string * V).

Fixpoint dict_get {V} (d : dict V) (k : string) : option V :=
  match d with
  | [] => None
  | (k', v) :: d' => if String.eqb k' k then Some v else dict_get d' k
  end.

(** [d[k] = v]: an existing key keeps its position, a new key goes last. *)
Fixpoint dict_set {V} (d : dict V) (k : string) (v : V) : dict V :=
  match d with
  | [] => [(k, v)]
  | (k', v') :: d' =>
      if String.eqb k' k then (k', v) :: d' else (k', v') :: dict_set d' k v
  end.

Definition keys {V} (d : dict V) : list string := map fst d.

(** [d[k]], raising [KeyError] on a missing key. *)
Definition getitem {V} (d : dict V) (k : string) : result V :=
  match dict_get d k with
  | Some v => Ok v
  | None => Raise (KeyError k)
  end.

(* ===================================================================== *)
(** ** round_up *)
(* ===================================================================== *)

(** [round_up] on Python integers, as its docstring types it.  [//] and [%]
    on [int] are floor division and the remainder with the sign of the
    divisor, which are [Z.div] and [Z.modulo]; both raise on a zero divisor. *)
Definition round_up (x n : Z) : result Z :=
  if n =? 0 then Raise ZeroDivisionError
  else Ok ((x / n + Z.b2z (negb (x mod n =? 0))) * n).

(** The same body on a [Decimal] [x], as the catalog calls it.  On [Decimal],
    [//] is the quotient truncated towards zero and [%] the matching
    remainder; the [int] [n] is converted exactly. *)
Definition dec_floordiv (x : Q) (n : Z) : Z :=
  let t := (x / inject_Z n)%Q in Z.quot (Qnum t) (Z.pos (Qden t)).

Definition dec_mod (x : Q) (n : Z) : Q :=
  (x - inject_Z (dec_floordiv x n) * inject_Z n)%Q.

Definition round_up_decimal (x : Q) (n : Z) : result Q :=
  if n =? 0 then Raise ZeroDivisionError
  else Ok ((inject_Z (dec_floordiv x n)
            + inject_Z (Z.b2z (negb (Qeq_bool (dec_mod x n) 0)))) * inject_Z n)%Q.

(* ===================================================================== *)
(** ** The catalog *)
(* ===================================================================== *)

Inductive Currency : Type := DKK.

Record Money : Type := { amount : Q; currency : Currency }.

Record Product : Type := {
  sku : string;
  title : string;
  description : string;
  price : Money
}.

Record Store : Type := {
  products : dict Product;
  inventory : dict Z;
  viewings : gmap string Z
}.

(** The random sources of module initialisation: the i-th draw of each. *)
Record Entropy : Type := {
  uuid4 : nat -> string;
  stock_draw : nat -> Z;      (* randint(0, 10) *)
  faker_name : nat -> string;
  faker_sentence : nat -> string;
  price_draw : nat -> Z       (* randint(5000, 250000) *)
}.

Definition entropy_in_range (e : Entropy) : Prop :=
  forall i : nat,
    (0 <= stock_draw e i <= 10) /\ (5000 <= price_draw e i <= 250000).

(** [{str(uuid4()): randint(0, 10) for _ in range(100)}] *)
Fixpoint draw_inventory (e : Entropy) (n : nat) : dict Z :=
  match n with
  | O => []
  | S n' => dict_set (draw_inventory e n') (uuid4 e n') (stock_draw e n')
  end.

(** [Money(round_up(Decimal(randint(5000, 250000)) / 100, 5), Currency.DKK)] *)
Definition make_price (cents : Z) : result Money :=
  match round_up_decimal (inject_Z cents / 100)%Q 5 with
  | Ok a => Ok {| amount := a; currency := DKK |}
  | Raise e => Raise e
  end.

(** The comprehension over [inventory.keys()]: one [products[key] = ...]
    per key, in key order; [i] counts the draws made so far. *)
Fixpoint draw_products (e : Entropy) (i : nat) (ks : list string)
    (acc : dict Product) : result (dict Product) :=
  match ks with
  | [] => Ok acc
  | key :: ks' =>
      match make_price (price_draw e i) with
      | Raise ex => Raise ex
      | Ok p =>
          draw_products e (S i) ks'
            (dict_set acc key
               {| sku := key; title := faker_name e i;
                  description := faker_sentence e i; price := p |})
      end
  end.

(** Module initialisation: [inventory], [products], [viewings = {}]. *)
Definition init (e : Entropy) : result Store :=
  let inv := draw_inventory e 100 in
  match draw_products e 0 (keys inv) [] with
  | Raise ex => Raise ex
  | Ok ps => Ok {| products := ps; inventory := inv; viewings := ∅ |}
  end.

(* ===================================================================== *)
(** ** Query functions *)
(* ===================================================================== *)

Record ProductDetails : Type := {
  pd_product : Product;
  pd_inventory : Z;
  pd_url : string;
  pd_views : Z
}.

(** [url_for('view_product_details', sku=sku)] for the rule
    [/products/<string:sku>]. *)
Definition url_for_view_product_details (sku : string) : string :=
  "/products/" +:+ sku.

(** [viewings.get(sku, 0)] *)
Definition view_count (st : Store) (sku : string) : Z :=
  default 0 (viewings st !! sku).

Definition get_product_details (sku : string) : M Store ProductDetails :=
  product <~ (fun st => (getitem (products st) sku, st)) ;;
  stock <~ (fun st => (getitem (inventory st) sku, st)) ;;
  views <~ gets (fun st => view_count st sku) ;;
  ret {| pd_product := product; pd_inventory := stock;
         pd_url := url_for_view_product_details sku; pd_views := views |}.

(** The list comprehension of [get_popular_products]. *)
Fixpoint in_stock_details (items : list (string * Product))
  : M Store (list ProductDetails) :=
  match items with
  | [] => ret []
  | (sku, _) :: rest =>
      stock <~ (fun st => (getitem (inventory st) sku, st)) ;;
      if 0 <? stock then
        d <~ get_product_details sku ;;
        ds <~ in_stock_details rest ;;
        ret (d :: ds)
      else in_stock_details rest
  end.

(** [sorted(l, key=lambda d: d['views'], reverse=True)]: Python's sort is
    stable, also with [reverse=True], so entries with equal views keep their
    order.  Insertion from the right end computes that list. *)
Fixpoint insert_desc (d : ProductDetails) (l : list ProductDetails)
  : list ProductDetails :=
  match l with
  | [] => [d]
  | d' :: l' =>
      if pd_views d <? pd_views d' then d' :: insert_desc d l' else d :: l
  end.

Fixpoint sorted_by_views_desc (l : list ProductDetails) : list ProductDetails :=
  match l with
  | [] => []
  | d :: l' => insert_desc d (sorted_by_views_desc l')
  end.

(** [l[0:stop]]: a negative [stop] counts from the end of the list. *)
Definition slice_to {A} (l : list A) (stop : Z) : list A :=
  if 0 <=? stop then firstn (Z.to_nat stop) l
  else firstn (length l - Z.to_nat (- stop))%nat l.

Definition get_popular_products (limit : Z) : M Store (list ProductDetails) :=
  items <~ gets products ;;
  ds <~ in_stock_details items ;;
  ret (slice_to (sorted_by_views_desc ds) limit).

(* ===================================================================== *)
(** ** int() *)
(* ===================================================================== *)

(** The values a key can be here: an [int], a [str] or [None].  A [float]
    key, which [int] would truncate, is not modelled. *)
Inductive pyvalue : Type :=
  | PyInt (z : Z)
  | PyStr (s : string)
  | PyNone.

(** [sys.get_int_max_str_digits()], at its default: the most digits a
    decimal literal given to [int] or the decimal form made by [str] may
    have. *)
Definition int_max_str_digits : Z := 4300.

Module PyInt.

(** The characters [int] strips around a literal: tab, line feed, vertical
    tab, form feed, carriage return and space. *)
Definition is_space (c : ascii) : bool :=
  let n := nat_of_ascii c in
  ((9 <=? n) && (n <=? 13) || (n =? 32))%nat.

Fixpoint lstrip (s : string) : string :=
  match s with
  | String c s' => if is_space c then lstrip s' else s
  | EmptyString => s
  end.

Fixpoint rstrip (s : string) : string :=
  match s with
  | String c s' =>
      match rstrip s' with
      | EmptyString => if is_space c then EmptyString else String c EmptyString
      | r => String c r
      end
  | EmptyString => EmptyString
  end.

Definition digit_of (c : ascii) : option Z :=
  let n := nat_of_ascii c in
  if ((48 <=? n) && (n <=? 57))%nat then Some (Z.of_nat n - 48) else None.

(** Decimal digits, with single underscores allowed between two digits;
    [after_digit] tells whether the previous character was a digit. *)
Fixpoint digits (acc : Z) (after_digit : bool) (s : string) : option Z :=
  match s with
  | EmptyString => if after_digit then Some acc else None
  | String c s' =>
      match digit_of c with
      | Some d => digits (10 * acc + d) true s'
      | None =>
          if Ascii.eqb c "_" && after_digit then digits acc false s' else None
      end
  end.

(** The number of digit characters of a literal; underscores and the sign
    are not counted, leading zeros are. *)
Fixpoint digit_count (s : string) : Z :=
  match s with
  | EmptyString => 0
  | String c s' =>
      match digit_of c with
      | Some _ => 1 + digit_count s'
      | None => digit_count s'
      end
  end.

(** A literal without its sign: rejected when it has more digits than the
    limit, read otherwise. *)
Definition unsigned (r : string) : option Z :=
  if int_max_str_digits <? digit_count r then None else digits 0 false r.

Definition of_string (s : string) : option Z :=
  match rstrip (lstrip s) with
  | String "+" r => unsigned r
  | String "-" r => Z.opp <$> unsigned r
  | t => unsigned t
  end.

End PyInt.

(** [int(v)]: an [int] is itself, a [str] is read as a decimal literal and
    is a [ValueError] when it is none; [None] is a [TypeError]. *)
Definition int (v : pyvalue) : result Z :=
  match v with
  | PyInt z => Ok z
  | PyStr s =>
      match PyInt.of_string s with
      | Some z => Ok z
      | None => Raise ValueError
      end
  | PyNone => Raise TypeError
  end.

(** The text of [str(v)], when [str] returns. *)
Definition str (v : pyvalue) : string :=
  match v with
  | PyInt z => pretty z
  | PyStr s => s
  | PyNone => "None"
  end.

(** [str(z)] for an [int] [z], which raises when the decimal form would
    have more digits than the limit. *)
Definition str_int (z : Z) : result string :=
  if 10 ^ int_max_str_digits <=? Z.abs z then Raise ValueError else Ok (pretty z).

(** ['{}'.format(v)] *)
Definition format (v : pyvalue) : result string :=
  match v with
  | PyInt z => str_int z
  | _ => Ok (str v)
  end.

(* ===================================================================== *)
(** ** Routes *)
(* ===================================================================== *)

(** What a view hands to [render_template] or wraps in [{'data': ...}]. *)
Inductive payload : Type :=
  | PopularProducts (l : list ProductDetails)
  | Details (d : ProductDetails)
  | Inventory (inv : dict Z)
  | InventoryCount (n : Z).

Inductive response : Type :=
  | render_template (template : string) (context : payload)
  | jsonify (data : payload).

(** Whether Flask's JSON encoder accepts the payload: it has no encoding
    for a [Money], so it accepts a payload only when no product is in it. *)
Definition json_serializable (p : payload) : bool :=
  match p with
  | PopularProducts [] => true
  | PopularProducts (_ :: _) => false
  | Details _ => false
  | Inventory _ => true
  | InventoryCount _ => true
  end.

(** [flask.jsonify({'data': p})]: the JSON response, or the [TypeError] of
    the encoder. *)
Definition flask_jsonify (p : payload) : result response :=
  if json_serializable p then Ok (jsonify p) else Raise TypeError.

Definition view_home : M Store response :=
  popular_products <~ get_popular_products 10 ;;
  ret (render_template "home.html" (PopularProducts popular_products)).

(** [limit_arg] is [request.args.get('limit')], absent or a string. *)
Definition api_popular_products (limit_arg : option string) : M Store response :=
  limit <~ lift (int (from_option PyStr (PyInt 10) limit_arg)) ;;
  l <~ get_popular_products limit ;;
  lift (flask_jsonify (PopularProducts l)).

(** [viewings[sku] = viewings.get(sku, 0) + 1] *)
Definition count_view (sku : string) (st : Store) : Store :=
  {| products := products st; inventory := inventory st;
     viewings := <[sku := view_count st sku + 1]> (viewings st) |}.

Definition view_product_details (sku : string) : M Store response :=
  modify (count_view sku) ;;;
  d <~ get_product_details sku ;;
  ret (render_template "product_details.html" (Details d)).

Definition api_product_details (sku : string) : M Store response :=
  d <~ get_product_details sku ;;
  lift (flask_jsonify (Details d)).

Definition api_inventory : M Store response :=
  inv <~ gets inventory ;;
  lift (flask_jsonify (Inventory inv)).

Definition api_inventory_sku (sku : string) : M Store response :=
  n <~ (fun st => (getitem (inventory st) sku, st)) ;;
  lift (flask_jsonify (InventoryCount n)).

(** The URL map of the application. *)
Inductive request : Type :=
  | GET_home                                           (* /                       *)
  | GET_api_popular_products (limit : option string)   (* /api/popular-products   *)
  | GET_products (sku : string)                        (* /products/<sku>         *)
  | GET_api_products (sku : string)                    (* /api/products/<sku>     *)
  | GET_api_inventory                                  (* /api/inventory          *)
  | GET_api_inventory_sku (sku : string).              (* /api/inventory/<sku>    *)

Definition dispatch (r : request) : M Store response :=
  match r with
  | GET_home => view_home
  | GET_api_popular_products limit => api_popular_products limit
  | GET_products sku => view_product_details sku
  | GET_api_products sku => api_product_details sku
  | GET_api_inventory => api_inventory
  | GET_api_inventory_sku sku => api_inventory_sku sku
  end.

(** Requests are served one after the other on the same store, whether or
    not the previous one raised. *)
Fixpoint serve (rs : list request) (st : Store) : Store :=
  match rs with
  | [] => st
  | r :: rs' => serve rs' (snd (dispatch r st))
  end.

(* ===================================================================== *)
(** ** urllib.parse.urlparse *)
(* ===================================================================== *)

Module UrlParse.

(** [s.find(c)], [s[:n]], [s[n:]], [s.rfind(c)] and [c in s]. *)
Fixpoint find (c : ascii) (s : string) : option nat :=
  match s with
  | EmptyString => None
  | String a s' => if Ascii.eqb a c then Some O else S <$> find c s'
  end.

Fixpoint take (n : nat) (s : string) : string :=
  match n, s with
  | S n', String a s' => String a (take n' s')
  | _, _ => EmptyString
  end.

Fixpoint drop (n : nat) (s : string) : string :=
  match n, s with
  | S n', String _ s' => drop n' s'
  | _, _ => s
  end.

Fixpoint rfind (c : ascii) (s : string) : option nat :=
  match s with
  | EmptyString => None
  | String a s' =>
      match rfind c s' with
      | Some i => Some (S i)
      | None => if Ascii.eqb a c then Some O else None
      end
  end.

Definition contains (c : ascii) (s : string) : bool :=
  match find c s with Some _ => true | None => false end.

(** [s.find(c, start)] *)
Definition find_from (c : ascii) (s : string) (start : nat) : option nat :=
  (fun i => (start + i)%nat) <$> find c (drop start s).

(** [s.split(c, 1)] when [c] occurs in [s]. *)
Definition split1 (c : ascii) (s : string) : option (string * string) :=
  (fun i => (take i s, drop (S i) s)) <$> find c s.

Fixpoint all_chars (p : ascii -> bool) (s : string) : bool :=
  match s with
  | EmptyString => true
  | String a s' => p a && all_chars p s'
  end.

Fixpoint filter_chars (p : ascii -> bool) (s : string) : string :=
  match s with
  | EmptyString => EmptyString
  | String a s' => if p a then String a (filter_chars p s') else filter_chars p s'
  end.

Fixpoint map_chars (f : ascii -> ascii) (s : string) : string :=
  match s with
  | EmptyString => EmptyString
  | String a s' => String (f a) (map_chars f s')
  end.

Definition between (lo hi : nat) (c : ascii) : bool :=
  let n := nat_of_ascii c in ((lo <=? n) && (n <=? hi))%nat.

Definition is_upper := between 65 90.
Definition is_lower := between 97 122.
Definition is_digit := between 48 57.
Definition is_alpha (c : ascii) : bool := is_upper c || is_lower c.

Definition to_lower (c : ascii) : ascii :=
  if is_upper c then ascii_of_nat (nat_of_ascii c + 32) else c.

(** [c in scheme_chars] *)
Definition scheme_char (c : ascii) : bool :=
  is_alpha c || is_digit c
  || Ascii.eqb c "+" || Ascii.eqb c "-" || Ascii.eqb c ".".

(** [c in _WHATWG_C0_CONTROL_OR_SPACE] *)
Definition c0_control_or_space (c : ascii) : bool := between 0 32 c.

(** [c in _UNSAFE_URL_BYTES_TO_REMOVE]: tab, carriage return, line feed. *)
Definition unsafe_url_byte (c : ascii) : bool :=
  let n := nat_of_ascii c in ((n =? 9) || (n =? 13) || (n =? 10))%nat.

Fixpoint lstrip (p : ascii -> bool) (s : string) : string :=
  match s with
  | String a s' => if p a then lstrip p s' else s
  | EmptyString => s
  end.

Definition uses_params : list string :=
  [""; "ftp"; "hdl"; "prospero"; "http"; "imap"; "https"; "shttp"; "rtsp";
   "rtspu"; "sip"; "sips"; "mms"; "sftp"; "tel"].

Record ParseResult : Type := {
  scheme : string;
  netloc : string;
  path : string;
  params : string;
  query : string;
  fragment : string
}.

Definition _splitnetloc (url : string) (start : nat) : string * string :=
  let delim :=
    fold_left
      (fun delim c =>
         match find_from c url start with
         | Some wdelim => Nat.min delim wdelim
         | None => delim
         end)
      ["/"; "?"; "#"]%char (String.length url) in
  (take (delim - start) (drop start url), drop delim url).

Definition _splitparams (url : string) : string * string :=
  let cut i := (take i url, drop (S i) url) in
  match rfind "/" url with
  | Some slash =>
      match find_from ";" url slash with
      | Some i => cut i
      | None => (url, "")
      end
  | None =>
      match find ";" url with
      | Some i => cut i
      | None => (take (String.length url - 1) url, url)   (* i = -1 *)
      end
  end.

Section Parse.

(** [_check_bracketed_netloc] validates a bracketed host as an IPv6 or
    IPvFuture literal through the [ipaddress] and [re] modules; the parser
    only needs to know whether it accepts. *)
Variable check_bracketed_netloc : string -> bool.

(** The components [(scheme, netloc, path, query, fragment)]. *)
Definition urlsplit (url0 : string)
  : result (string * string * string * string * string) :=
  let url := lstrip c0_control_or_space url0 in
  let url := filter_chars (fun c => negb (unsafe_url_byte c)) url in
  let '(scheme, url) :=
    match find ":" url, url with
    | Some (S i), String c0 _ =>
        if is_alpha c0 && all_chars scheme_char (take (S i) url)
        then (map_chars to_lower (take (S i) url), drop (S (S i)) url)
        else ("", url)
    | _, _ => ("", url)
    end in
  let split_rest netloc url :=
    let '(url, fragment) :=
      match split1 "#" url with Some p => p | None => (url, "") end in
    let '(url, query) :=
      match split1 "?" url with Some p => p | None => (url, "") end in
    Ok (scheme, netloc, url, query, fragment) in
  if String.eqb (take 2 url) "//" then
    let '(netloc, url) := _splitnetloc url 2 in
    if contains "[" netloc && negb (contains "]" netloc)
       || contains "]" netloc && negb (contains "[" netloc)
    then Raise ValueError
    else if contains "[" netloc && contains "]" netloc
            && negb (check_bracketed_netloc netloc)
    then Raise ValueError
    else split_rest netloc url
  else split_rest "" url.

Definition urlparse (url : string) : result ParseResult :=
  match urlsplit url with
  | Raise e => Raise e
  | Ok (scheme, netloc, url, query, fragment) =>
      let '(url, params) :=
        if bool_decide (scheme ∈ uses_params) && contains ";" url
        then _splitparams url else (url, "") in
      Ok {| scheme := scheme; netloc := netloc; path := url;
            params := params; query := query; fragment := fragment |}
  end.

End Parse.

End UrlParse.

(* ===================================================================== *)
(** ** The queue client *)
(* ===================================================================== *)

Module Miniq.

Inductive method : Type := GET | POST.

Record HttpRequest : Type := {
  req_method : method;
  req_url : string;
  req_data : option string
}.

(** A response of the remote service: its status; its body decoded as a
    JSON object, [None] when the body is not one; and, for such a body,
    whether it is JSON at all (an array, a string, a number, [null]) or
    cannot be decoded. *)
Record HttpResponse : Type := {
  status_code : Z;
  json : option (dict string);
  is_json : bool
}.

(** The network: the remote service and the requests sent to it so far. *)
Record Net : Type := {
  upstream : HttpRequest -> HttpResponse;
  sent : list HttpRequest
}.

Definition send (r : HttpRequest) : M Net HttpResponse :=
  fun net =>
    (Ok (upstream net r), {| upstream := upstream net; sent := sent net ++ [r] |}).

Definition requests_post (url : string) (data : string) : M Net HttpResponse :=
  send {| req_method := POST; req_url := url; req_data := Some data |}.

Definition requests_get (url : string) : M Net HttpResponse :=
  send {| req_method := GET; req_url := url; req_data := None |}.

Definition raise_for_status (r : HttpResponse) : result unit :=
  if (400 <=? status_code r) && (status_code r <? 600)
  then Raise (HTTPError (status_code r)) else Ok tt.

(** [response.json()['data']]: a body that cannot be decoded raises the
    decoder's [ValueError], a decoded body that is no object cannot be
    indexed with ['data'] and raises [TypeError]. *)
Definition json_data (r : HttpResponse) : result string :=
  match json r with
  | None => if is_json r then Raise TypeError else Raise ValueError
  | Some obj => getitem obj "data"
  end.

Record Miniq : Type := { uri : string }.

Section Client.

Variable check_bracketed_netloc : string -> bool.

Definition __init__ (hostname : string) : result Miniq :=
  match UrlParse.urlparse check_bracketed_netloc hostname with
  | Raise e => Raise e
  | Ok url =>
      Ok {| uri :=
              if negb (String.eqb (UrlParse.scheme url) "")
                 && negb (String.eqb (UrlParse.netloc url) "")
              then UrlParse.scheme url +:+ "://" +:+ UrlParse.netloc url
              else "http://" +:+ UrlParse.path url |}
  end.

End Client.

Definition create_job (self : Miniq) (key : pyvalue) (data : string)
  : M Net string :=
  k <~ lift (int key) ;;
  path <~ lift (str_int k) ;;
  response <~ requests_post (uri self +:+ "/" +:+ path) data ;;
  lift (raise_for_status response) ;;;
  lift (json_data response).

Definition get_queueset (self : Miniq) : M Net string :=
  response <~ requests_get (uri self) ;;
  lift (raise_for_status response) ;;;
  lift (json_data response).

Definition get_queue (self : Miniq) (key : pyvalue) : M Net string :=
  path <~ lift (format key) ;;
  response <~ requests_get (uri self +:+ "/" +:+ path) ;;
  lift (raise_for_status response) ;;;
  lift (json_data response).

End Miniq.

(* ===================================================================== *)
(** * Properties *)
(* ===================================================================== *)

(** The inventory and the product mapping have the same keys. *)
Definition same_keys (st : Store) : Prop :=
  forall sku : string, sku ∈ keys (inventory st) <-> sku ∈ keys (products st).

(** [d] is what [get_product_details(sku)] computes in [st]. *)
Definition details_of (st : Store) (sku : string) (d : ProductDetails) : Prop :=
  dict_get (products st) sku = Some (pd_product d)
  /\ dict_get (inventory st) sku = Some (pd_inventory d)
  /\ pd_url d = url_for_view_product_details sku
  /\ pd_views d = view_count st sku.

(** The number of catalog entries with a positive stock. *)
Definition in_stock_count (st : Store) : nat :=
  length (List.filter (fun it : string * Product =>
                    match dict_get (inventory st) (fst it) with
                    | Some n => 0 <? n
                    | None => false
                    end) (products st)).

(** [a] is the least multiple of [n] that is at least [x]. *)
Definition least_multiple_above (n : Z) (x a : Q) : Prop :=
  (exists k : Z, a == inject_Z (k * n))%Q
  /\ (x <= a)%Q
  /\ forall k : Z, (x <= inject_Z (k * n))%Q -> (a <= inject_Z (k * n))%Q.

(** Random sources that draw the same values every time. *)
Definition demo_entropy : Entropy :=
  {| uuid4 := fun _ => "5a1c6f0e-0000-4000-8000-000000000000";
     stock_draw := fun _ => 3;
     faker_name := fun _ => "Jane Doe";
     faker_sentence := fun _ => "A sentence.";
     price_draw := fun _ => 5001 |}.

(** A configured hostname the parser leaves whole: it does not start with
    a control character or a space nor with [//], and contains no tab,
    carriage return or line feed and none of [:], [?], [#] and [;]. *)
Definition plain_host (s : string) : bool :=
  match s with
  | String c _ => negb (UrlParse.c0_control_or_space c)
  | EmptyString => true
  end
  && UrlParse.all_chars
       (fun c => negb (UrlParse.unsafe_url_byte c)
                 && negb (Ascii.eqb c ":") && negb (Ascii.eqb c "?")
                 && negb (Ascii.eqb c "#") && negb (Ascii.eqb c ";")) s
  && negb (String.eqb (UrlParse.take 2 s) "//").

(** A validator of bracketed hosts that accepts every host. *)
Definition accept_bracketed (_ : string) : bool := true.

(** A remote service that answers every request with [{"data": "[]"}]. *)
Definition demo_net : Miniq.Net :=
  {| Miniq.upstream := fun _ => {| Miniq.status_code := 200;
                                   Miniq.json := Some [("data", "[]")];
                                   Miniq.is_json := true |};
     Miniq.sent := [] |}.

Definition demo_client : Miniq.Miniq := {| Miniq.uri := "http://queue.example" |}.

(** Descending order of views. *)
Definition by_views_desc (a b : ProductDetails) : Prop := pd_views b <= pd_views a.

(** A small catalog to evaluate the routes on: two products in stock, one
    sold out, one of them viewed five times. *)
Definition demo_product (key : string) : Product :=
  {| sku := key; title := "Jane Doe"; description := "A sentence.";
     price := {| amount := 55; currency := DKK |} |}.

Definition demo_store : Store :=
  {| products := [("sku-1", demo_product "sku-1");
                  ("sku-2", demo_product "sku-2");
                  ("sku-3", demo_product "sku-3")];
     inventory := [("sku-1", 2); ("sku-2", 0); ("sku-3", 7)];
     viewings := {["sku-3" := 5]} |}.

(** The sku whose view a request counts, if it counts one. *)
Definition counted_view (r : request) : option string :=
  match r with
  | GET_products sku => Some sku
  | _ => None
  end.

(** How many requests of [rs] go to the HTML detail page of [sku]. *)
Definition detail_page_requests (sku : string) (rs : list request) : Z :=
  Z.of_nat (length (List.filter
                      (fun r => match counted_view r with
                                | Some s => String.eqb s sku
                                | None => false
                                end) rs)).

(** The details of the products in stock, in catalog order, read off the
    store without running the comprehension. *)
Definition catalog_details (st : Store) : list ProductDetails :=
  omap (fun it : string * Product =>
          match dict_get (inventory st) (fst it), dict_get (products st) (fst it) with
          | Some n, Some p =>
              if 0 <? n
              then Some {| pd_product := p; pd_inventory := n;
                           pd_url := url_for_view_product_details (fst it);
                           pd_views := view_count st (fst it) |}
              else None
          | _, _ => None
          end) (products st).

(** The entries of [l] that have exactly [v] views, in the order of [l]. *)
Definition with_views (v : Z) (l : list ProductDetails) : list ProductDetails :=
  List.filter (fun d => pd_views d =? v) l.

(** Random sources whose identifiers are all different. *)
Definition numbered_entropy : Entropy :=
  {| uuid4 := fun i => pretty i;
     stock_draw := fun _ => 10;
     faker_name := fun _ => "Jane Doe";
     faker_sentence := fun _ => "A sentence.";
     price_draw := fun _ => 250000 |}.

(** A remote service that answers every request with status 503. *)
Definition failing_net : Miniq.Net :=
  {| Miniq.upstream := fun _ => {| Miniq.status_code := 503; Miniq.json := None;
                                   Miniq.is_json := false |};
     Miniq.sent := [] |}.

(** A scheme name: a letter followed by scheme characters. *)
Definition scheme_name (s : string) : bool :=
  match s with
  | String c _ => UrlParse.is_alpha c
  | EmptyString => false
  end
  && UrlParse.all_chars UrlParse.scheme_char s.

(** A host, with or without a port or user part: not empty, without tab,
    carriage return or line feed and without [/], [?], [#], [[] and []]. *)
Definition authority (s : string) : bool :=
  negb (String.eqb s "")
  && UrlParse.all_chars
       (fun c => negb (UrlParse.unsafe_url_byte c)
                 && negb (Ascii.eqb c "/") && negb (Ascii.eqb c "?")
                 && negb (Ascii.eqb c "#") && negb (Ascii.eqb c "[")
                 && negb (Ascii.eqb c "]")) s.

(** What may follow the host: nothing, or a path, query or fragment. *)
Definition url_tail (s : string) : bool :=
  match s with
  | String c _ => Ascii.eqb c "/" || Ascii.eqb c "?" || Ascii.eqb c "#"
  | EmptyString => true
  end.

(** ** Dictionaries *)

Section Dict.
Context {V : Type}.
Implicit Types (d : dict V) (k : string) (v : V).

Lemma dict_get_None d k : dict_get d k = None <-> k ∉ keys d.
Proof.
  induction d as [|[k' v'] d IH]; simpl.
  - split; [intros _; apply not_elem_of_nil | done].
  - destruct (String.eqb_spec k' k) as [->|Hne].
    + split; [done | intros H; exfalso; apply H; left].
    + rewrite IH, not_elem_of_cons. split; [by split | by intros [_ ?]].
Qed.

Lemma dict_get_is_Some d k : is_Some (dict_get d k) <-> k ∈ keys d.
Proof.
  destruct (dict_get d k) eqn:E.
  - split; [intros _ | eauto].
    destruct (decide (k ∈ keys d)) as [|Hn]; [done|].
    apply dict_get_None in Hn. congruence.
  - apply dict_get_None in E. split; [intros [? ?]; done | done].
Qed.

Lemma getitem_missing d k : k ∉ keys d -> getitem d k = Raise (KeyError k).
Proof. intros H. unfold getitem. apply dict_get_None in H. by rewrite H. Qed.

Lemma keys_dict_set_old d k v : k ∈ keys d -> keys (dict_set d k v) = keys d.
Proof.
  induction d as [|[k' v'] d IH]; simpl; intros H.
  - by apply elem_of_nil in H.
  - destruct (String.eqb_spec k' k) as [->|Hne]; [done|].
    simpl. f_equal. apply IH. apply elem_of_cons in H as [->|H]; done.
Qed.

Lemma keys_dict_set_new d k v : k ∉ keys d -> keys (dict_set d k v) = (keys d ++ [k])%list.
Proof.
  induction d as [|[k' v'] d IH]; simpl; intros H; [done|].
  apply not_elem_of_cons in H as [Hne H].
  destruct (String.eqb_spec k' k) as [->|_]; [done|].
  simpl. f_equal. by apply IH.
Qed.

Lemma NoDup_keys_dict_set d k v : NoDup (keys d) -> NoDup (keys (dict_set d k v)).
Proof.
  intros Hd. destruct (decide (k ∈ keys d)) as [Hin|Hnin].
  - by rewrite keys_dict_set_old.
  - rewrite keys_dict_set_new by done.
    apply NoDup_app. split_and!; [done | | apply NoDup_singleton].
    intros x Hx Hx'. apply list_elem_of_singleton in Hx'. by subst.
Qed.

End Dict.

(** ** The query functions only read the store *)

Lemma get_product_details_ok st sku p n :
  dict_get (products st) sku = Some p ->
  dict_get (inventory st) sku = Some n ->
  get_product_details sku st =
    (Ok {| pd_product := p; pd_inventory := n;
           pd_url := url_for_view_product_details sku;
           pd_views := view_count st sku |}, st).
Proof.
  intros Hp Hn. unfold get_product_details, bind, getitem, gets, ret.
  by rewrite Hp, Hn.
Qed.

Lemma get_product_details_missing st sku :
  sku ∉ keys (products st) ->
  get_product_details sku st = (Raise (KeyError sku), st).
Proof.
  intros H. unfold get_product_details, bind.
  by rewrite (getitem_missing _ _ H).
Qed.

Lemma get_product_details_store st sku : snd (get_product_details sku st) = st.
Proof.
  unfold get_product_details, bind, getitem, gets, ret.
  destruct (dict_get (products st) sku); [|done].
  by destruct (dict_get (inventory st) sku).
Qed.

Lemma in_stock_details_store items st : snd (in_stock_details items st) = st.
Proof.
  induction items as [|[sku p] items IH]; [done|].
  simpl. unfold bind at 1. unfold getitem.
  destruct (dict_get (inventory st) sku) as [n|]; [|done].
  destruct (0 <? n); [|apply IH].
  unfold bind at 1.
  pose proof (get_product_details_store st sku) as Hd.
  destruct (get_product_details sku st) as [[d|e] st1]; simpl in Hd; subst st1;
    [|done].
  unfold bind at 1. destruct (in_stock_details items st) as [[ds|e] st1];
    simpl in IH; by subst.
Qed.

Lemma get_popular_products_store limit st :
  snd (get_popular_products limit st) = st.
Proof.
  unfold get_popular_products, bind, gets, ret.
  pose proof (in_stock_details_store (products st) st) as H.
  destruct (in_stock_details (products st) st) as [[ds|e] st1];
    simpl in H; by subst.
Qed.

(** ** The ranking *)

Lemma insert_desc_length d l : length (insert_desc d l) = S (length l).
Proof.
  induction l as [|d' l IH]; simpl; [done|].
  destruct (pd_views d <? pd_views d'); simpl; by rewrite ?IH.
Qed.

Lemma insert_desc_Forall (P : ProductDetails -> Prop) d l :
  P d -> Forall P l -> Forall P (insert_desc d l).
Proof.
  intros Hd Hl. induction Hl as [|d' l Hd' Hl IH]; simpl.
  - by constructor.
  - destruct (pd_views d <? pd_views d'); repeat constructor; done.
Qed.

Lemma insert_desc_sorted d l :
  StronglySorted by_views_desc l -> StronglySorted by_views_desc (insert_desc d l).
Proof.
  induction 1 as [|d' l Hl IH Hall]; simpl.
  - repeat constructor.
  - destruct (Z.ltb_spec (pd_views d) (pd_views d')) as [Hlt|Hge].
    + constructor; [done|].
      apply insert_desc_Forall; [unfold by_views_desc; lia | done].
    + constructor; [by constructor|].
      constructor; [done|].
      eapply Forall_impl; [exact Hall|].
      unfold by_views_desc. intros; simpl in *; lia.
Qed.

Lemma sorted_by_views_desc_length l :
  length (sorted_by_views_desc l) = length l.
Proof.
  induction l as [|d l IH]; simpl; [done|]. by rewrite insert_desc_length, IH.
Qed.

Lemma sorted_by_views_desc_Forall (P : ProductDetails -> Prop) l :
  Forall P l -> Forall P (sorted_by_views_desc l).
Proof.
  induction 1; simpl; [constructor | by apply insert_desc_Forall].
Qed.

Lemma sorted_by_views_desc_sorted l :
  StronglySorted by_views_desc (sorted_by_views_desc l).
Proof.
  induction l; simpl; [constructor | by apply insert_desc_sorted].
Qed.

Lemma firstn_sorted {A} (R : A -> A -> Prop) n l :
  StronglySorted R l -> StronglySorted R (firstn n l).
Proof.
  intros Hl. revert n. induction Hl as [|a l Hl IH Hall]; intros [|n]; simpl;
    try constructor; [apply IH|].
  by apply Forall_take.
Qed.

Lemma slice_to_Forall {A} (P : A -> Prop) l stop :
  Forall P l -> Forall P (slice_to l stop).
Proof. intros H. unfold slice_to. destruct (0 <=? stop); by apply Forall_take. Qed.

Lemma slice_to_sorted {A} (R : A -> A -> Prop) l stop :
  StronglySorted R l -> StronglySorted R (slice_to l stop).
Proof. intros H. unfold slice_to. destruct (0 <=? stop); by apply firstn_sorted. Qed.

Lemma slice_to_length {A} (l : list A) stop :
  length (slice_to l stop) =
    if 0 <=? stop then Nat.min (Z.to_nat stop) (length l)
    else (length l - Z.to_nat (- stop))%nat.
Proof.
  unfold slice_to. destruct (0 <=? stop); rewrite length_firstn; lia.
Qed.

(** The comprehension succeeds when every item has a stock entry and a
    product entry, and collects the details of the items in stock. *)
Lemma in_stock_details_spec st items :
  (forall it, it ∈ items ->
     is_Some (dict_get (products st) (fst it))
     /\ is_Some (dict_get (inventory st) (fst it))) ->
  exists ds,
    in_stock_details items st = (Ok ds, st)
    /\ Forall (fun d => 0 < pd_inventory d /\ exists sku, details_of st sku d) ds
    /\ length ds =
         length (List.filter (fun it : string * Product =>
                                match dict_get (inventory st) (fst it) with
                                | Some n => 0 <? n
                                | None => false
                                end) items).
Proof.
  induction items as [|[sku p] items IH]; intros Hitems.
  - exists []. by repeat split.
  - destruct IH as (ds & Hds & Hall & Hlen).
    { intros it Hit. apply Hitems. by right. }
    destruct (Hitems (sku, p)) as [[p' Hp'] [n Hn]]; [left|]. simpl in Hp', Hn.
    simpl. unfold bind at 1. unfold getitem at 1. rewrite Hn.
    destruct (Z.ltb_spec 0 n) as [Hpos|Hnpos].
    + unfold bind at 1. rewrite (get_product_details_ok _ _ _ _ Hp' Hn).
      unfold bind at 1. rewrite Hds. unfold ret.
      eexists. split; [reflexivity|]. split.
      * constructor; [|done]. simpl. split; [done|].
        exists sku. by repeat split.
      * simpl. by rewrite Hlen.
    + exists ds. by repeat split.
Qed.

Lemma same_keys_items st :
  same_keys st ->
  forall it, it ∈ products st ->
    is_Some (dict_get (products st) (fst it))
    /\ is_Some (dict_get (inventory st) (fst it)).
Proof.
  intros Hk it Hit.
  assert (fst it ∈ keys (products st)) as Hin by (by apply list_elem_of_fmap_2).
  split; apply dict_get_is_Some; [done | by apply Hk].
Qed.

(** [get_popular_products] on a store whose mappings have the same keys. *)
Lemma get_popular_products_spec st limit :
  same_keys st ->
  exists ds,
    get_popular_products limit st = (Ok ds, st)
    /\ Forall (fun d => 0 < pd_inventory d /\ exists sku, details_of st sku d) ds
    /\ StronglySorted by_views_desc ds
    /\ length ds =
         if 0 <=? limit then Nat.min (Z.to_nat limit) (in_stock_count st)
         else (in_stock_count st - Z.to_nat (- limit))%nat.
Proof.
  intros Hk.
  destruct (in_stock_details_spec st (products st) (same_keys_items st Hk))
    as (ds & Hds & Hall & Hlen).
  exists (slice_to (sorted_by_views_desc ds) limit).
  unfold get_popular_products, bind, gets, ret. rewrite Hds.
  split; [done|]. split; [|split].
  - by apply slice_to_Forall, sorted_by_views_desc_Forall.
  - apply slice_to_sorted, sorted_by_views_desc_sorted.
  - rewrite slice_to_length, sorted_by_views_desc_length, Hlen. done.
Qed.

(** ** Routes and the store *)

Lemma view_count_count_view st sku sku' :
  view_count (count_view sku st) sku' =
    if decide (sku = sku') then view_count st sku + 1 else view_count st sku'.
Proof.
  unfold view_count, count_view. simpl. rewrite lookup_insert.
  by destruct (decide (sku = sku')).
Qed.

Lemma view_product_details_store st sku :
  snd (view_product_details sku st) = count_view sku st.
Proof.
  unfold view_product_details, bind, modify, ret.
  pose proof (get_product_details_store (count_view sku st) sku) as H.
  destruct (get_product_details sku (count_view sku st)) as [[d|e] st1];
    simpl in H; by subst.
Qed.

Lemma api_product_details_store st sku : snd (api_product_details sku st) = st.
Proof.
  unfold api_product_details, bind, ret.
  pose proof (get_product_details_store st sku) as H.
  destruct (get_product_details sku st) as [[d|e] st1]; simpl in H; by subst.
Qed.

(** A request either leaves the store as it is or counts one view. *)
Lemma dispatch_store r st :
  snd (dispatch r st) = st \/ exists sku, snd (dispatch r st) = count_view sku st.
Proof.
  destruct r as [|limit|sku|sku| |sku]; simpl.
  - left. unfold view_home, bind, ret.
    pose proof (get_popular_products_store 10 st) as H.
    destruct (get_popular_products 10 st) as [[l|e] st1]; simpl in H; by subst.
  - left. unfold api_popular_products, bind, lift, ret.
    destruct (int _) as [n|e]; [|done].
    pose proof (get_popular_products_store n st) as H.
    destruct (get_popular_products n st) as [[l|e] st1]; simpl in H; by subst.
  - right. exists sku. apply view_product_details_store.
  - left. apply api_product_details_store.
  - by left.
  - left. unfold api_inventory_sku, bind, ret.
    by destruct (getitem (inventory st) sku).
Qed.

Lemma dispatch_catalog r st :
  products (snd (dispatch r st)) = products st
  /\ inventory (snd (dispatch r st)) = inventory st.
Proof. destruct (dispatch_store r st) as [->|[sku ->]]; done. Qed.

Lemma dispatch_view_count r st sku :
  view_count st sku <= view_count (snd (dispatch r st)) sku.
Proof.
  destruct (dispatch_store r st) as [->|[sku' ->]]; [lia|].
  rewrite view_count_count_view. destruct (decide (sku' = sku)); subst; lia.
Qed.

Lemma serve_app rs1 rs2 st : serve (rs1 ++ rs2) st = serve rs2 (serve rs1 st).
Proof. revert st. induction rs1 as [|r rs1 IH]; intros st; simpl; [done | apply IH]. Qed.

Lemma serve_catalog rs st :
  products (serve rs st) = products st /\ inventory (serve rs st) = inventory st.
Proof.
  revert st. induction rs as [|r rs IH]; intros st; simpl; [done|].
  destruct (IH (snd (dispatch r st))) as [-> ->]. apply dispatch_catalog.
Qed.

Lemma serve_view_count rs st sku : view_count st sku <= view_count (serve rs st) sku.
Proof.
  revert st. induction rs as [|r rs IH]; intros st; simpl; [lia|].
  etrans; [apply (dispatch_view_count r) | apply IH].
Qed.

(** ** Detail views and the view count *)

(** C1, as the code has it: for a product of the catalog, each request to
    the HTML detail route adds exactly one to its view count, so two such
    requests add exactly two, while a request to the JSON detail route
    leaves every view count (the whole store) as it was. *)
Theorem detail_routes_view_count (st : Store) (sku : string) :
  sku ∈ keys (products st) ->
  let html := view_product_details sku st in
  let json := api_product_details sku st in
  view_count (snd html) sku = view_count st sku + 1
  /\ view_count (snd (view_product_details sku (snd html))) sku
     = view_count st sku + 2
  /\ snd json = st
  /\ forall other, view_count (snd json) other = view_count st other.
Proof.
  intros Hin. simpl.
  split; [|split; [|split]].
  - rewrite view_product_details_store, view_count_count_view.
    by destruct (decide (sku = sku)).
  - rewrite !view_product_details_store, !view_count_count_view.
    destruct (decide (sku = sku)); [lia | done].
  - apply api_product_details_store.
  - intros other. by rewrite api_product_details_store.
Qed.

Lemma demo_store_same_keys : same_keys demo_store.
Proof. intros sku. reflexivity. Defined.

Lemma demo_store_has_sku_1 : "sku-1" ∈ keys (products demo_store).
Proof. left. Defined.

Lemma detail_routes_view_count_witness :
  let html := view_product_details "sku-1" demo_store in
  let json := api_product_details "sku-1" demo_store in
  view_count (snd html) "sku-1" = view_count demo_store "sku-1" + 1
  /\ view_count (snd (view_product_details "sku-1" (snd html))) "sku-1"
     = view_count demo_store "sku-1" + 2
  /\ snd json = demo_store
  /\ forall other, view_count (snd json) other = view_count demo_store other.
Proof.
  exact (detail_routes_view_count demo_store "sku-1" demo_store_has_sku_1).
Defined.

(** C1 as stated fails: a request to the JSON detail route for a product of
    the catalog does not add one to its view count. *)
Lemma json_detail_route_counts_no_view :
  "sku-1" ∈ keys (products demo_store)
  /\ view_count (snd (dispatch (GET_api_products "sku-1") demo_store)) "sku-1"
     <> view_count demo_store "sku-1" + 1.
Proof. split; [left | vm_compute; discriminate]. Qed.

(** C10: for every sku, known or not, a request to the HTML detail route
    sets the view count of that sku to its former value (zero when absent)
    plus one and changes nothing else: products, inventory and every other
    view count stay; for an unknown sku the request fails with the missing-key
    error and the count is recorded all the same. *)
Theorem html_detail_route_frame (st : Store) (sku : string) :
  let st' := snd (view_product_details sku st) in
  viewings st' = <[sku := view_count st sku + 1]> (viewings st)
  /\ view_count st' sku = view_count st sku + 1
  /\ (viewings st !! sku = None -> viewings st' !! sku = Some 1)
  /\ (forall other, other <> sku -> viewings st' !! other = viewings st !! other)
  /\ products st' = products st
  /\ inventory st' = inventory st
  /\ (sku ∉ keys (products st) ->
      fst (view_product_details sku st) = Raise (KeyError sku)
      /\ viewings st' !! sku = Some (view_count st sku + 1)).
Proof.
  simpl. rewrite view_product_details_store.
  split; [done|]. split.
  { rewrite view_count_count_view. by destruct (decide (sku = sku)). }
  split.
  { intros Hnone. unfold count_view, view_count. simpl.
    by rewrite Hnone, lookup_insert_eq. }
  split.
  { intros other Hne. unfold count_view. simpl. by rewrite lookup_insert_ne. }
  split; [done|]. split; [done|].
  intros Hmiss. split.
  - unfold view_product_details, bind, modify.
    by rewrite (get_product_details_missing (count_view sku st) sku).
  - unfold count_view. simpl. by rewrite lookup_insert_eq.
Qed.

Lemma html_detail_route_frame_witness :
  let st' := snd (view_product_details "no-such-sku" demo_store) in
  viewings st' !! "no-such-sku" = Some 1
  /\ viewings st' !! "sku-3" = Some 5
  /\ fst (view_product_details "no-such-sku" demo_store)
     = Raise (KeyError "no-such-sku").
Proof.
  destruct (html_detail_route_frame demo_store "no-such-sku")
    as (_ & _ & Hnew & Hother & _ & _ & Hmiss).
  split; [by apply Hnew|]. split.
  - rewrite Hother; [reflexivity | discriminate].
  - apply Hmiss. vm_compute. intros H.
    repeat (apply elem_of_cons in H as [H|H]; [discriminate|]).
    by apply elem_of_nil in H.
Defined.

(** C4: for an identifier absent from the catalog, [get_product_details]
    raises the missing-key error for that identifier, and so does the
    single-inventory-entry route; neither changes the store. *)
Theorem unknown_sku_not_found (st : Store) (sku : string) :
  same_keys st ->
  sku ∉ keys (products st) ->
  get_product_details sku st = (Raise (KeyError sku), st)
  /\ dispatch (GET_api_inventory_sku sku) st = (Raise (KeyError sku), st).
Proof.
  intros Hk Hmiss. split; [by apply get_product_details_missing|].
  simpl. unfold api_inventory_sku, bind.
  rewrite getitem_missing; [done|]. intros Hin. by apply Hmiss, Hk.
Qed.

Lemma demo_store_lacks_unknown_id : "unknown-id" ∉ keys (products demo_store).
Proof.
  intros H. repeat (apply elem_of_cons in H as [H|H]; [discriminate|]).
  by apply elem_of_nil in H.
Defined.

Lemma unknown_sku_not_found_witness :
  get_product_details "unknown-id" demo_store
    = (Raise (KeyError "unknown-id"), demo_store)
  /\ dispatch (GET_api_inventory_sku "unknown-id") demo_store
    = (Raise (KeyError "unknown-id"), demo_store).
Proof.
  exact (unknown_sku_not_found demo_store "unknown-id"
           demo_store_same_keys demo_store_lacks_unknown_id).
Defined.

(** ** Popular products *)

(** C5: for a positive limit, on a store whose two mappings have the same
    keys, [get_popular_products] returns at most [limit] entries, each the
    details of a catalog product with a positive stock, in descending order
    of views, and leaves the store, hence every view count, as it was. *)
Theorem popular_products_positive_limit (st : Store) (limit : Z) :
  0 < limit ->
  same_keys st ->
  exists ds,
    get_popular_products limit st = (Ok ds, st)
    /\ Z.of_nat (length ds) <= limit
    /\ Forall (fun d => 0 < pd_inventory d
                        /\ exists sku, sku ∈ keys (products st)
                                       /\ details_of st sku d) ds
    /\ StronglySorted by_views_desc ds
    /\ forall sku, view_count (snd (get_popular_products limit st)) sku
                   = view_count st sku.
Proof.
  intros Hpos Hk.
  destruct (get_popular_products_spec st limit Hk) as (ds & Hds & Hall & Hs & Hlen).
  exists ds. split; [done|]. split.
  { rewrite Hlen. destruct (Z.leb_spec 0 limit); lia. }
  split.
  { eapply Forall_impl; [exact Hall|]. intros d [Hd [sku Hsku]].
    split; [done|]. exists sku. split; [|done].
    apply dict_get_is_Some. destruct Hsku as [Hp _]. by rewrite Hp. }
  split; [done|]. intros sku. by rewrite Hds.
Qed.

Lemma popular_products_positive_limit_witness :
  exists ds,
    get_popular_products 1 demo_store = (Ok ds, demo_store)
    /\ Z.of_nat (length ds) <= 1
    /\ Forall (fun d => 0 < pd_inventory d
                        /\ exists sku, sku ∈ keys (products demo_store)
                                       /\ details_of demo_store sku d) ds
    /\ StronglySorted by_views_desc ds
    /\ forall sku, view_count (snd (get_popular_products 1 demo_store)) sku
                   = view_count demo_store sku.
Proof.
  apply (popular_products_positive_limit demo_store 1); [lia|].
  exact demo_store_same_keys.
Defined.

(** C3 as stated fails: with two products in stock and limit -1 the result
    is not empty. *)
Lemma popular_products_negative_limit_nonempty :
  -1 <= 0 /\ fst (get_popular_products (-1) demo_store) <> Ok [].
Proof. split; [lia | vm_compute; discriminate]. Qed.

(** ** Invariants of the running application *)

(** C8: starting from the empty view-count mapping, after any sequence of
    requests every view count is at least zero, and serving further requests
    never makes it smaller. *)
Theorem view_count_nonneg_monotone
    (ps : dict Product) (inv : dict Z) (rs1 rs2 : list request) (sku : string) :
  let st0 := {| products := ps; inventory := inv; viewings := ∅ |} in
  0 <= view_count (serve rs1 st0) sku
  /\ view_count (serve rs1 st0) sku <= view_count (serve (rs1 ++ rs2) st0) sku.
Proof.
  simpl. split.
  - etrans; [|apply serve_view_count]. unfold view_count. simpl.
    by rewrite lookup_empty.
  - rewrite serve_app. apply serve_view_count.
Qed.

(** ** Initialisation *)

Lemma dict_get_dict_set {V} (d : dict V) k v k' :
  dict_get (dict_set d k v) k' = if String.eqb k k' then Some v else dict_get d k'.
Proof.
  induction d as [|[k0 v0] d IH]; simpl; [done|].
  destruct (String.eqb_spec k0 k) as [->|Hne]; simpl.
  - by destruct (String.eqb k k').
  - rewrite IH. destruct (String.eqb_spec k0 k') as [->|_]; [|done].
    destruct (String.eqb_spec k k') as [->|_]; done.
Qed.

Lemma make_price_total cents : exists a, make_price cents = Ok {| amount := a; currency := DKK |}.
Proof. unfold make_price, round_up_decimal. simpl. eauto. Qed.

Lemma draw_inventory_NoDup e n : NoDup (keys (draw_inventory e n)).
Proof.
  induction n as [|n IH]; simpl; [apply NoDup_nil_2 | by apply NoDup_keys_dict_set].
Qed.

Lemma draw_products_keys e ks : forall i acc,
  NoDup ks ->
  (forall k, k ∈ ks -> k ∉ keys acc) ->
  exists ps, draw_products e i ks acc = Ok ps /\ keys ps = (keys acc ++ ks)%list.
Proof.
  induction ks as [|key ks IH]; intros i acc Hnd Hfresh; cbn [draw_products].
  - exists acc. by rewrite app_nil_r.
  - destruct (make_price_total (price_draw e i)) as [a ->].
    apply NoDup_cons in Hnd as [Hkey Hnd].
    match goal with
    | |- context [dict_set acc key ?p] =>
        destruct (IH (S i) (dict_set acc key p) Hnd) as (ps & Hps & Hkeys)
    end.
    { intros k Hk. rewrite keys_dict_set_new by (apply Hfresh; left).
      rewrite elem_of_app, list_elem_of_singleton.
      intros [Hacc | ->]; [|done]. by apply (Hfresh k); [right|]. }
    exists ps. split; [done|].
    rewrite Hkeys, keys_dict_set_new by (apply Hfresh; left).
    by rewrite <- app_assoc.
Qed.

Lemma init_ok e :
  exists ps,
    init e = Ok {| products := ps; inventory := draw_inventory e 100; viewings := ∅ |}
    /\ keys ps = keys (draw_inventory e 100).
Proof.
  unfold init.
  destruct (draw_products_keys e (keys (draw_inventory e 100)) 0%nat [])
    as (ps & Hps & Hkeys).
  - apply draw_inventory_NoDup.
  - intros k _. apply not_elem_of_nil.
  - exists ps. cbv zeta. rewrite Hps. by split.
Qed.

(** C9: initialisation succeeds, and in the store it builds, and after any
    sequence of requests served on it, the inventory mapping and the product
    mapping have the same keys (in the same order); no request changes
    either mapping. *)
Theorem inventory_keys_are_product_keys (e : Entropy) :
  exists st,
    init e = Ok st
    /\ forall rs : list request,
         same_keys (serve rs st)
         /\ keys (inventory (serve rs st)) = keys (products (serve rs st))
         /\ NoDup (keys (products (serve rs st)))
         /\ products (serve rs st) = products st
         /\ inventory (serve rs st) = inventory st.
Proof.
  destruct (init_ok e) as (ps & Hinit & Hkeys).
  eexists. split; [exact Hinit|]. intros rs.
  destruct (serve_catalog rs
              {| products := ps; inventory := draw_inventory e 100; viewings := ∅ |})
    as [Hp Hi].
  unfold same_keys. rewrite Hp, Hi. cbn [products inventory]. rewrite Hkeys.
  split; [done|]. split; [done|]. split; [apply draw_inventory_NoDup | done].
Qed.

(** ** Prices *)

Lemma round_up_spec x n :
  0 < x -> 0 < n ->
  exists r, round_up x n = Ok r
            /\ (n | r) /\ 0 < r /\ x <= r
            /\ forall m, (n | m) -> x <= m -> r <= m.
Proof.
  intros Hx Hn. unfold round_up.
  destruct (Z.eqb_spec n 0) as [->|_]; [lia|].
  pose proof (Z.div_mod x n ltac:(lia)) as Hdm.
  pose proof (Z.mod_pos_bound x n Hn) as Hr.
  pose proof (Z.div_pos x n ltac:(lia) Hn) as Hq.
  set (q := x / n) in *. set (r := x mod n) in *.
  eexists. split; [reflexivity|].
  destruct (Z.eqb_spec r 0) as [Hr0|Hr0]; simpl Z.b2z.
  - split; [by exists (q + 0)|]. split; [nia|]. split; [nia|].
    intros m [k ->] Hm. nia.
  - split; [by exists (q + 1)|]. split; [nia|]. split; [nia|].
    intros m [k ->] Hm.
    assert (q < k) by nia. nia.
Qed.

(** The remainder of the price amount is zero exactly when the drawn number
    of hundredths is a multiple of 500. *)
Lemma dec_mod_price_zero c q :
  Qeq_bool (inject_Z c / 100 - inject_Z q * inject_Z 5)%Q 0 = (c =? 500 * q).
Proof.
  destruct (Z.eqb_spec c (500 * q)) as [Heq|Hne].
  - apply Qeq_bool_iff. unfold Qeq. simpl. lia.
  - destruct (Qeq_bool _ _) eqn:E; [|done].
    apply Qeq_bool_iff in E. unfold Qeq in E. simpl in E. lia.
Qed.

Lemma make_price_spec c :
  0 < c ->
  exists a,
    make_price c = Ok {| amount := a; currency := DKK |}
    /\ (0 < a)%Q
    /\ least_multiple_above 5 (inject_Z c / 100)%Q a.
Proof.
  intros Hc. unfold make_price, round_up_decimal, dec_mod, dec_floordiv.
  cbn -[Z.quot Z.mul Qeq_bool Qdiv Qminus Qmult Qplus inject_Z].
  change (Qnum (inject_Z c / 100 / inject_Z 5)%Q) with (c * 1 * 1).
  change (Qden (inject_Z c / 100 / inject_Z 5)%Q) with (500%positive).
  rewrite !Z.mul_1_r, Z.quot_div_nonneg by lia.
  rewrite dec_mod_price_zero.
  pose proof (Z.div_mod c 500 ltac:(lia)) as Hdm.
  pose proof (Z.mod_pos_bound c 500 ltac:(lia)) as Hr.
  set (q := c / 500) in *. set (r := c mod 500) in *.
  eexists. split; [reflexivity|].
  destruct (Z.eqb_spec c (500 * q)) as [Heq|Hne]; simpl Z.b2z.
  - split; [|split; [|split]].
    + unfold Qlt. simpl. lia.
    + exists q. unfold Qeq. simpl. lia.
    + unfold Qle. simpl. lia.
    + intros k. unfold Qle. simpl. lia.
  - split; [|split; [|split]].
    + unfold Qlt. simpl. lia.
    + exists (q + 1). unfold Qeq. simpl. lia.
    + unfold Qle. simpl. lia.
    + intros k. unfold Qle. simpl. lia.
Qed.

Lemma draw_products_prices e (P : Money -> Prop) ks : forall i acc ps,
  (forall j m, make_price (price_draw e j) = Ok m -> P m) ->
  (forall k p, dict_get acc k = Some p -> P (price p)) ->
  draw_products e i ks acc = Ok ps ->
  forall k p, dict_get ps k = Some p -> P (price p).
Proof.
  induction ks as [|key ks IH]; intros i acc ps Hmk Hacc; cbn [draw_products].
  - intros [= <-]. exact Hacc.
  - destruct (make_price (price_draw e i)) as [m|ex] eqn:Hm; [|done].
    apply IH; [done|]. intros k p. rewrite dict_get_dict_set.
    destruct (String.eqb key k); [|apply Hacc].
    intros [= <-]. simpl. by apply (Hmk i).
Qed.

(** C6: [round_up(x, n)] on positive integers is the least multiple of [n]
    that is at least [x]; and with draws in their ranges, initialisation
    succeeds and the price of every generated product is in DKK, positive
    and the least multiple of the granularity 5 that is at least the drawn
    amount (a drawn number of hundredths divided by 100). *)
Theorem prices_rounded_up (e : Entropy) (x n : Z) :
  entropy_in_range e ->
  0 < x -> 0 < n ->
  (exists r, round_up x n = Ok r
             /\ (n | r) /\ 0 < r /\ x <= r
             /\ forall m, (n | m) -> x <= m -> r <= m)
  /\ exists st,
       init e = Ok st
       /\ forall key p,
            dict_get (products st) key = Some p ->
            currency (price p) = DKK
            /\ (0 < amount (price p))%Q
            /\ exists i : nat,
                 least_multiple_above 5 (inject_Z (price_draw e i) / 100)%Q
                   (amount (price p)).
Proof.
  intros He Hx Hn. split; [by apply round_up_spec|].
  destruct (init_ok e) as (ps & Hinit & _).
  eexists. split; [exact Hinit|]. cbn [products].
  unfold init in Hinit. cbv zeta in Hinit.
  destruct (draw_products e 0 (keys (draw_inventory e 100)) []) as [ps'|ex] eqn:Hps;
    [|done].
  injection Hinit as <-.
  apply (draw_products_prices e
           (fun m => currency m = DKK
                     /\ (0 < amount m)%Q
                     /\ exists i : nat,
                          least_multiple_above 5
                            (inject_Z (price_draw e i) / 100)%Q (amount m))
           (keys (draw_inventory e 100)) 0%nat [] ps');
    [intros j m Hm | intros k p Hk | exact Hps].
  - destruct (make_price_spec (price_draw e j)) as (a & Ha & Hpos & Hleast).
    { destruct (He j) as [_ ?]. lia. }
    rewrite Ha in Hm. injection Hm as <-. simpl. eauto.
  - discriminate Hk.
Qed.

Lemma demo_entropy_in_range : entropy_in_range demo_entropy.
Proof. intros i. simpl. lia. Defined.

Lemma prices_rounded_up_witness :
  (exists r, round_up 7 5 = Ok r
             /\ (5 | r) /\ 0 < r /\ 7 <= r
             /\ forall m, (5 | m) -> 7 <= m -> r <= m)
  /\ exists st,
       init demo_entropy = Ok st
       /\ forall key p,
            dict_get (products st) key = Some p ->
            currency (price p) = DKK
            /\ (0 < amount (price p))%Q
            /\ exists i : nat,
                 least_multiple_above 5
                   (inject_Z (price_draw demo_entropy i) / 100)%Q
                   (amount (price p)).
Proof.
  apply (prices_rounded_up demo_entropy 7 5); [exact demo_entropy_in_range | lia | lia].
Defined.

(** ** The queue client *)




Section UrlFacts.
Import UrlParse.

Lemma all_chars_impl (p q : ascii -> bool) s :
  (forall c, p c = true -> q c = true) ->
  all_chars p s = true -> all_chars q s = true.
Proof.
  intros Hpq. induction s as [|a s IH]; simpl; [done|].
  intros [Ha Hs]%andb_prop. by rewrite (Hpq a Ha), IH.
Qed.

Lemma filter_chars_all p s : all_chars p s = true -> filter_chars p s = s.
Proof.
  induction s as [|a s IH]; simpl; [done|].
  intros [Ha Hs]%andb_prop. by rewrite Ha, IH.
Qed.

Lemma find_absent c s :
  all_chars (fun a => negb (Ascii.eqb a c)) s = true -> find c s = None.
Proof.
  induction s as [|a s IH]; simpl; [done|].
  intros [Ha Hs]%andb_prop. apply negb_true_iff in Ha. by rewrite Ha, IH.
Qed.

Lemma contains_absent c s :
  all_chars (fun a => negb (Ascii.eqb a c)) s = true -> contains c s = false.
Proof. intros H. unfold contains. by rewrite find_absent. Qed.

(** The parser returns a plain hostname as the path and nothing else. *)
Lemma urlparse_plain_host chk s :
  plain_host s = true ->
  urlparse chk s =
    Ok {| scheme := ""; netloc := ""; path := s; params := "";
          query := ""; fragment := "" |}.
Proof.
  unfold plain_host. intros [[Hfirst Hall]%andb_prop Hslash]%andb_prop.
  assert (lstrip c0_control_or_space s = s) as Hstrip.
  { destruct s as [|c s]; simpl; [done|].
    apply negb_true_iff in Hfirst. by rewrite Hfirst. }
  assert (filter_chars (fun c => negb (unsafe_url_byte c)) s = s) as Hfilter.
  { apply filter_chars_all. eapply all_chars_impl; [|exact Hall].
    intros c Hc. by repeat (apply andb_prop in Hc as [Hc ?]). }
  assert (forall c, c = ":"%char \/ c = "?"%char \/ c = "#"%char \/ c = ";"%char ->
                    find c s = None) as Hfind.
  { intros c Hc. apply find_absent. eapply all_chars_impl; [|exact Hall].
    intros a Ha.
    apply andb_prop in Ha as [Ha H4]. apply andb_prop in Ha as [Ha H3].
    apply andb_prop in Ha as [Ha H2]. apply andb_prop in Ha as [_ H1].
    destruct Hc as [-> | [-> | [-> | ->]]]; done. }
  apply negb_true_iff in Hslash.
  unfold urlparse, urlsplit. rewrite Hstrip, Hfilter.
  rewrite (Hfind ":"%char) by auto. rewrite Hslash.
  cbv zeta beta. unfold split1.
  rewrite (Hfind "#"%char) by auto. cbn [fmap option_fmap option_map].
  rewrite (Hfind "?"%char) by auto. cbn [fmap option_fmap option_map].
  unfold contains. rewrite (Hfind ";"%char) by auto.
  by rewrite andb_false_r.
Qed.

End UrlFacts.

(** C2, as the code has it: when the configured string parses with both a
    scheme and a host, the base URI is scheme + "://" + host; when it parses
    with neither a scheme nor a host, the base URI is "http://" followed by
    the path component of the parse, which is the entire configured string
    for a plain hostname (one with no control character or space in front,
    no leading "//", no tab, carriage return or line feed and none of ":",
    "?", "#" and ";"); a string the parser rejects is rejected by the
    constructor.  Nothing is stated for a string that parses with only one
    of scheme and host. *)
Theorem base_uri_of_hostname (chk : string -> bool) (hostname : string) :
  (forall url,
     UrlParse.urlparse chk hostname = Ok url ->
     exists self,
       Miniq.__init__ chk hostname = Ok self
       /\ (UrlParse.scheme url <> "" -> UrlParse.netloc url <> "" ->
           Miniq.uri self = UrlParse.scheme url +:+ "://" +:+ UrlParse.netloc url)
       /\ (UrlParse.scheme url = "" -> UrlParse.netloc url = "" ->
           Miniq.uri self = "http://" +:+ UrlParse.path url))
  /\ (forall e, UrlParse.urlparse chk hostname = Raise e ->
                Miniq.__init__ chk hostname = Raise e)
  /\ (plain_host hostname = true ->
      Miniq.__init__ chk hostname = Ok {| Miniq.uri := "http://" +:+ hostname |}).
Proof.
  split; [|split].
  - intros url Hurl. unfold Miniq.__init__. rewrite Hurl.
    eexists. split; [reflexivity|]. cbn [Miniq.uri]. split.
    + intros Hs Hn.
      destruct (String.eqb_spec (UrlParse.scheme url) ""); [done|].
      by destruct (String.eqb_spec (UrlParse.netloc url) "").
    + intros Hs Hn. by rewrite Hs.
  - intros e He. unfold Miniq.__init__. by rewrite He.
  - intros Hplain. unfold Miniq.__init__.
    by rewrite (urlparse_plain_host chk hostname Hplain).
Qed.

Lemma queue_example_is_plain : plain_host "queue.example" = true.
Proof. reflexivity. Defined.

Lemma base_uri_of_hostname_witness :
  Miniq.__init__ accept_bracketed "queue.example"
    = Ok {| Miniq.uri := "http://queue.example" |}
  /\ exists self,
       Miniq.__init__ accept_bracketed "https://queue.example/jobs" = Ok self
       /\ Miniq.uri self = "https://queue.example".
Proof.
  split.
  - exact (proj2 (proj2 (base_uri_of_hostname accept_bracketed "queue.example"))
             queue_example_is_plain).
  - destruct (proj1 (base_uri_of_hostname accept_bracketed
                       "https://queue.example/jobs") _ eq_refl)
      as (self & Hinit & Hboth & _).
    exists self. split; [exact Hinit|]. apply Hboth; discriminate.
Defined.

(** C2 as stated fails: "example.com?x=1" parses without a scheme and
    without a host, and the base URI is not "http://" followed by the whole
    string: the query is dropped. *)
Lemma base_uri_drops_query :
  exists url,
    UrlParse.urlparse accept_bracketed "example.com?x=1" = Ok url
    /\ UrlParse.scheme url = "" /\ UrlParse.netloc url = ""
    /\ Miniq.__init__ accept_bracketed "example.com?x=1"
       = Ok {| Miniq.uri := "http://example.com" |}
    /\ Miniq.__init__ accept_bracketed "example.com?x=1"
       <> Ok {| Miniq.uri := "http://" +:+ "example.com?x=1" |}.
Proof.
  eexists. split; [vm_compute; reflexivity|].
  repeat split; vm_compute; discriminate.
Qed.

(* ===================================================================== *)
(** * Further properties of the application *)
(* ===================================================================== *)

(** ** Counting views *)

Lemma dispatch_effect r st :
  snd (dispatch r st) =
    match counted_view r with
    | Some sku => count_view sku st
    | None => st
    end.
Proof.
  destruct r as [|limit|sku|sku| |sku]; simpl.
  - unfold view_home, bind, ret.
    pose proof (get_popular_products_store 10 st) as H.
    destruct (get_popular_products 10 st) as [[l|e] st1]; simpl in H; by subst.
  - unfold api_popular_products, bind, lift, ret.
    destruct (int _) as [n|e]; [|done].
    pose proof (get_popular_products_store n st) as H.
    destruct (get_popular_products n st) as [[l|e] st1]; simpl in H; by subst.
  - apply view_product_details_store.
  - apply api_product_details_store.
  - done.
  - unfold api_inventory_sku, bind, ret. by destruct (getitem (inventory st) sku).
Qed.

(** X1: after serving any sequence of requests, the view count of a sku is
    its former count plus the number of requests to the HTML detail page of
    that sku, whether those requests succeeded or not; no other request
    counts. *)
Theorem view_count_counts_detail_pages (rs : list request) (st : Store) (sku : string) :
  view_count (serve rs st) sku = view_count st sku + detail_page_requests sku rs.
Proof.
  revert st. induction rs as [|r rs IH]; intros st.
  - unfold detail_page_requests. simpl. lia.
  - cbn [serve]. rewrite IH, dispatch_effect.
    unfold detail_page_requests. cbn [List.filter].
    destruct (counted_view r) as [s|]; [|lia].
    rewrite view_count_count_view.
    destruct (String.eqb_spec s sku) as [->|Hne].
    + destruct (decide (sku = sku)); [|done]. cbn [length]. lia.
    + destruct (decide (s = sku)); [done|]. lia.
Qed.

Lemma count_view_comm a b st :
  count_view a (count_view b st) = count_view b (count_view a st).
Proof.
  destruct (decide (a = b)) as [->|Hne]; [done|].
  unfold count_view. cbn [products inventory viewings]. f_equal.
  change (view_count {| products := products st; inventory := inventory st;
                        viewings := <[b := view_count st b + 1]> (viewings st) |} a)
    with (view_count (count_view b st) a).
  change (view_count {| products := products st; inventory := inventory st;
                        viewings := <[a := view_count st a + 1]> (viewings st) |} b)
    with (view_count (count_view a st) b).
  rewrite !view_count_count_view.
  destruct (decide (b = a)); [by subst|]. destruct (decide (a = b)); [done|].
  by apply insert_insert_ne.
Qed.

Lemma dispatch_comm r1 r2 st :
  snd (dispatch r2 (snd (dispatch r1 st))) = snd (dispatch r1 (snd (dispatch r2 st))).
Proof.
  rewrite !dispatch_effect.
  destruct (counted_view r1), (counted_view r2); try done. apply count_view_comm.
Qed.

(** X2: the store reached by serving a sequence of requests does not depend
    on the order of the requests. *)
Theorem serve_order_irrelevant (rs rs' : list request) (st : Store) :
  Permutation rs rs' -> serve rs st = serve rs' st.
Proof.
  intros Hp. revert st. induction Hp as [|r rs rs' _ IH|r1 r2 rs|rs1 rs2 rs3 _ IH1 _ IH2];
    intros st; cbn [serve].
  - done.
  - apply IH.
  - by rewrite dispatch_comm.
  - by rewrite IH1.
Qed.

Lemma serve_order_irrelevant_witness :
  serve [GET_products "sku-1"; GET_home; GET_products "unknown-id"] demo_store
  = serve [GET_products "unknown-id"; GET_products "sku-1"; GET_home] demo_store.
Proof.
  apply (serve_order_irrelevant
           [GET_products "sku-1"; GET_home; GET_products "unknown-id"]
           [GET_products "unknown-id"; GET_products "sku-1"; GET_home]).
  apply (Permutation_cons_app [GET_products "unknown-id"] [GET_home]).
  apply perm_swap.
Defined.

(** ** The ranking, entry by entry *)

Lemma in_stock_details_omap st items :
  (forall it, it ∈ items ->
     is_Some (dict_get (products st) (fst it))
     /\ is_Some (dict_get (inventory st) (fst it))) ->
  in_stock_details items st =
    (Ok (omap (fun it : string * Product =>
                 match dict_get (inventory st) (fst it),
                       dict_get (products st) (fst it) with
                 | Some n, Some p =>
                     if 0 <? n
                     then Some {| pd_product := p; pd_inventory := n;
                                  pd_url := url_for_view_product_details (fst it);
                                  pd_views := view_count st (fst it) |}
                     else None
                 | _, _ => None
                 end) items), st).
Proof.
  induction items as [|[sku p] items IH]; intros Hitems; [done|].
  destruct (Hitems (sku, p)) as [[p' Hp'] [n Hn]]; [left|]. simpl in Hp', Hn.
  cbn [in_stock_details omap list_omap fst]. rewrite Hn, Hp'.
  unfold bind at 1. unfold getitem at 1. rewrite Hn.
  destruct (0 <? n); [|apply IH; intros it Hit; apply Hitems; by right].
  unfold bind at 1. rewrite (get_product_details_ok _ _ _ _ Hp' Hn).
  unfold bind at 1. rewrite IH by (intros it Hit; apply Hitems; by right).
  done.
Qed.

Lemma get_popular_products_eq st limit :
  same_keys st ->
  get_popular_products limit st =
    (Ok (slice_to (sorted_by_views_desc (catalog_details st)) limit), st).
Proof.
  intros Hk. unfold get_popular_products, bind, gets, ret.
  by rewrite (in_stock_details_omap st (products st) (same_keys_items st Hk)).
Qed.

Lemma insert_desc_perm d l : Permutation (insert_desc d l) (d :: l).
Proof.
  induction l as [|d' l IH]; simpl; [done|].
  destruct (pd_views d <? pd_views d'); [|done].
  rewrite IH. apply perm_swap.
Qed.

Lemma sorted_by_views_desc_perm l : Permutation (sorted_by_views_desc l) l.
Proof.
  induction l as [|d l IH]; simpl; [done|]. by rewrite insert_desc_perm, IH.
Qed.

Lemma with_views_insert_desc v d l :
  with_views v (insert_desc d l) = with_views v (d :: l).
Proof.
  unfold with_views. induction l as [|d' l IH]; [done|].
  cbn [insert_desc]. destruct (Z.ltb_spec (pd_views d) (pd_views d')) as [Hlt|]; [|done].
  cbn [List.filter] in *. rewrite IH.
  destruct (Z.eqb_spec (pd_views d) v), (Z.eqb_spec (pd_views d') v); try done; lia.
Qed.

Lemma with_views_sorted v l :
  with_views v (sorted_by_views_desc l) = with_views v l.
Proof.
  induction l as [|d l IH]; [done|].
  cbn [sorted_by_views_desc]. rewrite with_views_insert_desc.
  unfold with_views in *. cbn [List.filter]. by rewrite IH.
Qed.

Lemma catalog_details_length st : length (catalog_details st) = in_stock_count st.
Proof.
  unfold catalog_details, in_stock_count.
  assert (forall items : list (string * Product),
            (forall it, it ∈ items -> is_Some (dict_get (products st) (fst it))) ->
            length (omap (fun it : string * Product =>
                 match dict_get (inventory st) (fst it),
                       dict_get (products st) (fst it) with
                 | Some n, Some p =>
                     if 0 <? n
                     then Some {| pd_product := p; pd_inventory := n;
                                  pd_url := url_for_view_product_details (fst it);
                                  pd_views := view_count st (fst it) |}
                     else None
                 | _, _ => None
                 end) items)
            = length (List.filter (fun it : string * Product =>
                        match dict_get (inventory st) (fst it) with
                        | Some n => 0 <? n
                        | None => false
                        end) items)) as H.
  { induction items as [|it items IH]; intros Hitems; [done|].
    cbn [omap list_omap List.filter].
    destruct (Hitems it) as [p Hp]; [left|]. rewrite Hp.
    assert (forall it', it' ∈ items -> is_Some (dict_get (products st) (fst it')))
      as Hrest by (intros it' Hit'; apply Hitems; by right).
    destruct (dict_get (inventory st) (fst it)) as [n|]; [|by apply IH].
    destruct (0 <? n); [|by apply IH]. cbn [length]. f_equal. by apply IH. }
  apply H. intros it Hit. apply dict_get_is_Some. by apply list_elem_of_fmap_2.
Qed.

(** X3: with a limit of at least the number of catalog entries, the result
    of [get_popular_products] lists exactly the products in stock, each
    once: it is a rearrangement of their details, it has as many entries as
    there are products in stock, and every catalog product with a positive
    stock has its details in it. *)
Theorem popular_products_complete (st : Store) (limit : Z) :
  same_keys st ->
  Z.of_nat (length (products st)) <= limit ->
  exists ds,
    get_popular_products limit st = (Ok ds, st)
    /\ Permutation ds (catalog_details st)
    /\ length ds = in_stock_count st
    /\ forall sku n,
         sku ∈ keys (products st) ->
         dict_get (inventory st) sku = Some n -> 0 < n ->
         exists d, d ∈ ds /\ details_of st sku d.
Proof.
  intros Hk Hlimit. eexists. split; [by apply get_popular_products_eq|].
  assert (slice_to (sorted_by_views_desc (catalog_details st)) limit
          = sorted_by_views_desc (catalog_details st)) as ->.
  { unfold slice_to. destruct (Z.leb_spec 0 limit); [|lia].
    apply firstn_all2.
    rewrite sorted_by_views_desc_length, catalog_details_length.
    unfold in_stock_count.
    etrans; [apply List.filter_length_le|]. lia. }
  split; [apply sorted_by_views_desc_perm|]. split.
  { by rewrite sorted_by_views_desc_length, catalog_details_length. }
  intros sku n Hin Hn Hpos.
  apply list_elem_of_fmap in Hin as ([sku' p] & -> & Hit). cbn [fst] in *.
  destruct (proj2 (dict_get_is_Some (products st) sku')) as [p' Hp'].
  { by apply (list_elem_of_fmap_2 fst) in Hit. }
  exists {| pd_product := p'; pd_inventory := n;
            pd_url := url_for_view_product_details sku';
            pd_views := view_count st sku' |}.
  split; [|by repeat split].
  rewrite sorted_by_views_desc_perm. unfold catalog_details.
  apply list_elem_of_omap. exists (sku', p). split; [done|]. cbn [fst].
  rewrite Hn, Hp'. by destruct (Z.ltb_spec 0 n); [|lia].
Qed.

Lemma popular_products_complete_witness :
  exists ds,
    get_popular_products 3 demo_store = (Ok ds, demo_store)
    /\ Permutation ds (catalog_details demo_store)
    /\ length ds = in_stock_count demo_store
    /\ forall sku n,
         sku ∈ keys (products demo_store) ->
         dict_get (inventory demo_store) sku = Some n -> 0 < n ->
         exists d, d ∈ ds /\ details_of demo_store sku d.
Proof.
  apply (popular_products_complete demo_store 3); [exact demo_store_same_keys|].
  simpl. lia.
Defined.

(** C3, as the code has it: with a limit of zero or less
    [get_popular_products] does not raise and leaves the store as it was;
    for zero the result is empty, and for a negative limit it is the ranking
    (the result for a limit of the size of the catalog) without its last
    [-limit] entries, which is empty exactly when at most [-limit] products
    are in stock. *)
Theorem popular_products_nonpositive_limit (st : Store) (limit : Z) :
  limit <= 0 ->
  same_keys st ->
  exists ds,
    get_popular_products limit st = (Ok ds, st)
    /\ (limit = 0 -> ds = [])
    /\ (limit < 0 ->
        exists dropped,
          get_popular_products (Z.of_nat (length (products st))) st
            = (Ok (ds ++ dropped)%list, st)
          /\ length dropped = Nat.min (Z.to_nat (- limit)) (in_stock_count st)
          /\ (ds = [] <-> Z.of_nat (in_stock_count st) <= - limit)).
Proof.
  intros Hle Hk. rewrite !(get_popular_products_eq st _ Hk).
  set (ranking := sorted_by_views_desc (catalog_details st)).
  assert (length ranking = in_stock_count st) as Hlen.
  { unfold ranking. by rewrite sorted_by_views_desc_length, catalog_details_length. }
  assert (slice_to ranking (Z.of_nat (length (products st))) = ranking) as Hall.
  { unfold slice_to. destruct (Z.leb_spec 0 (Z.of_nat (length (products st)))); [|lia].
    apply firstn_all2. rewrite Hlen. unfold in_stock_count.
    etrans; [apply List.filter_length_le|]. lia. }
  exists (slice_to ranking limit). split; [done|]. split.
  - intros ->. done.
  - intros Hneg. rewrite Hall. unfold slice_to.
    destruct (Z.leb_spec 0 limit); [lia|].
    exists (skipn (length ranking - Z.to_nat (- limit)) ranking).
    rewrite firstn_skipn. split; [done|]. split.
    + rewrite length_skipn, Hlen. lia.
    + rewrite <- length_zero_iff_nil, length_firstn, Hlen. lia.
Qed.

Lemma popular_products_nonpositive_limit_witness :
  exists ds,
    get_popular_products (-1) demo_store = (Ok ds, demo_store)
    /\ (-1 = 0 -> ds = [])
    /\ (-1 < 0 ->
        exists dropped,
          get_popular_products (Z.of_nat (length (products demo_store))) demo_store
            = (Ok (ds ++ dropped)%list, demo_store)
          /\ length dropped = Nat.min (Z.to_nat (- -1)) (in_stock_count demo_store)
          /\ (ds = [] <-> Z.of_nat (in_stock_count demo_store) <= - -1)).
Proof.
  apply (popular_products_nonpositive_limit demo_store (-1)); [lia|].
  exact demo_store_same_keys.
Defined.

Lemma with_views_firstn v n l :
  exists rest, with_views v l = (with_views v (firstn n l) ++ rest)%list.
Proof.
  exists (with_views v (skipn n l)). unfold with_views.
  by rewrite <- List.filter_app, firstn_skipn.
Qed.

(** X4: whatever the limit, the entries of the result that have the same
    number of views come in catalog order: for every number of views, the
    entries of the result with that number are an initial part of the
    in-stock products with that number, in the order of the catalog. *)
Theorem popular_products_ties_in_catalog_order (st : Store) (limit v : Z) :
  same_keys st ->
  exists ds rest,
    get_popular_products limit st = (Ok ds, st)
    /\ with_views v (catalog_details st) = (with_views v ds ++ rest)%list.
Proof.
  intros Hk. rewrite (get_popular_products_eq st limit Hk).
  rewrite <- (with_views_sorted v (catalog_details st)).
  unfold slice_to. destruct (0 <=? limit).
  - destruct (with_views_firstn v (Z.to_nat limit)
                (sorted_by_views_desc (catalog_details st))) as [rest Hrest].
    by eexists _, rest.
  - destruct (with_views_firstn v
                (length (sorted_by_views_desc (catalog_details st))
                 - Z.to_nat (- limit))
                (sorted_by_views_desc (catalog_details st))) as [rest Hrest].
    by eexists _, rest.
Qed.

Lemma popular_products_ties_in_catalog_order_witness :
  exists ds rest,
    get_popular_products 1 demo_store = (Ok ds, demo_store)
    /\ with_views 0 (catalog_details demo_store) = (with_views 0 ds ++ rest)%list.
Proof.
  exact (popular_products_ties_in_catalog_order demo_store 1 0 demo_store_same_keys).
Defined.

Lemma sorted_app_cross {A} (R : A -> A -> Prop) (l1 l2 : list A) :
  StronglySorted R (l1 ++ l2) ->
  forall a b, a ∈ l1 -> b ∈ l2 -> R a b.
Proof.
  induction l1 as [|x l1 IH]; intros Hs a b Ha Hb.
  - by apply elem_of_nil in Ha.
  - cbn [app] in Hs. apply StronglySorted_inv in Hs as [Hs Hx].
    apply elem_of_cons in Ha as [->|Ha]; [|by apply IH].
    rewrite Forall_forall in Hx. apply Hx, elem_of_app. by right.
Qed.

(** X5: a larger limit only adds entries at the end: for limits
    [0 <= limit1 <= limit2] the result for [limit1] is the beginning of the
    result for [limit2], and none of the entries that follow it has more
    views than an entry of it. *)
Theorem popular_products_limit_truncates (st : Store) (limit1 limit2 : Z) :
  same_keys st ->
  0 <= limit1 <= limit2 ->
  exists ds rest,
    get_popular_products limit1 st = (Ok ds, st)
    /\ get_popular_products limit2 st = (Ok (ds ++ rest)%list, st)
    /\ forall d d', d ∈ ds -> d' ∈ rest -> pd_views d' <= pd_views d.
Proof.
  intros Hk [H1 H2]. rewrite !(get_popular_products_eq st _ Hk).
  set (ranking := sorted_by_views_desc (catalog_details st)).
  unfold slice_to.
  destruct (Z.leb_spec 0 limit1); [|lia]. destruct (Z.leb_spec 0 limit2); [|lia].
  exists (firstn (Z.to_nat limit1) ranking),
         (skipn (Z.to_nat limit1) (firstn (Z.to_nat limit2) ranking)).
  assert (firstn (Z.to_nat limit2) ranking
          = (firstn (Z.to_nat limit1) ranking
             ++ skipn (Z.to_nat limit1) (firstn (Z.to_nat limit2) ranking))%list)
    as Hsplit.
  { rewrite <- (firstn_skipn (Z.to_nat limit1) (firstn (Z.to_nat limit2) ranking))
      at 1.
    f_equal. rewrite firstn_firstn. f_equal. lia. }
  split; [done|]. split; [by rewrite <- Hsplit|].
  intros d d' Hd Hd'.
  apply (sorted_app_cross by_views_desc _ _
           (eq_ind _ (StronglySorted by_views_desc)
              (firstn_sorted _ (Z.to_nat limit2) ranking
                 (sorted_by_views_desc_sorted _)) _ Hsplit) d d' Hd Hd').
Qed.

Lemma popular_products_limit_truncates_witness :
  exists ds rest,
    get_popular_products 1 demo_store = (Ok ds, demo_store)
    /\ get_popular_products 2 demo_store = (Ok (ds ++ rest)%list, demo_store)
    /\ forall d d', d ∈ ds -> d' ∈ rest -> pd_views d' <= pd_views d.
Proof.
  apply (popular_products_limit_truncates demo_store 1 2);
    [exact demo_store_same_keys | lia].
Defined.

(** ** The popular-products routes *)





(** ** round_up on all integers *)

(** X8: for a positive [n] and any integer [x], also zero or negative,
    [round_up(x, n)] is the least multiple of [n] that is at least [x]; it is
    less than [x + n], it is [x] itself exactly when [n] divides [x], and
    rounding it again changes nothing. *)
Theorem round_up_positive_step (x n : Z) :
  0 < n ->
  exists r,
    round_up x n = Ok r
    /\ (n | r) /\ x <= r < x + n
    /\ (forall m, (n | m) -> x <= m -> r <= m)
    /\ (r = x <-> (n | x))
    /\ round_up r n = Ok r.
Proof.
  intros Hn. unfold round_up.
  destruct (Z.eqb_spec n 0) as [->|_]; [lia|].
  pose proof (Z.div_mod x n ltac:(lia)) as Hdm.
  pose proof (Z.mod_pos_bound x n Hn) as Hr.
  eexists. split; [reflexivity|].
  assert (forall k, (k * n) mod n = 0) as Hmul by (intros k; apply Z.mod_mul; lia).
  assert (forall k, k * n / n = k) as Hdiv by (intros k; apply Z.div_mul; lia).
  destruct (Z.eqb_spec (x mod n) 0) as [Hr0|Hr0]; cbn [negb Z.b2z].
  - split; [by exists (x / n + 0)|]. split; [nia|]. split.
    { intros m [k ->] Hm. nia. }
    split.
    { split; [|nia]. intros _. exists (x / n). nia. }
    rewrite Hmul, Hdiv. cbn [Z.eqb negb Z.b2z]. f_equal. lia.
  - split; [by exists (x / n + 1)|]. split; [nia|]. split.
    { intros m [k ->] Hm. assert (x / n < k) by nia. nia. }
    split.
    { split; [nia|]. intros [k ->]. by rewrite Hmul in Hr0. }
    rewrite Hmul, Hdiv. cbn [Z.eqb negb Z.b2z]. f_equal. lia.
Qed.

Lemma round_up_positive_step_witness :
  exists r,
    round_up (-7) 5 = Ok r
    /\ (5 | r) /\ -7 <= r < -7 + 5
    /\ (forall m, (5 | m) -> -7 <= m -> r <= m)
    /\ (r = -7 <-> (5 | -7))
    /\ round_up r 5 = Ok r.
Proof. apply (round_up_positive_step (-7) 5). lia. Defined.

(** X9: a zero [n] raises [ZeroDivisionError]; for a negative [n] the
    function rounds down, not up: the result is the greatest multiple of [n]
    that is at most [x], and it is more than [x + n]. *)
Theorem round_up_nonpositive_step (x n : Z) :
  n <= 0 ->
  (n = 0 -> round_up x n = Raise ZeroDivisionError)
  /\ (n < 0 ->
      exists r,
        round_up x n = Ok r
        /\ (n | r) /\ x + n < r <= x
        /\ forall m, (n | m) -> m <= x -> m <= r).
Proof.
  intros Hn. split; [by intros ->|]. intros Hneg. unfold round_up.
  destruct (Z.eqb_spec n 0) as [->|_]; [lia|].
  pose proof (Z.div_mod x n ltac:(lia)) as Hdm.
  pose proof (Z.mod_neg_bound x n Hneg) as Hr.
  eexists. split; [reflexivity|].
  destruct (Z.eqb_spec (x mod n) 0) as [Hr0|Hr0]; cbn [negb Z.b2z].
  - split; [by exists (x / n + 0)|]. split; [nia|].
    intros m [k ->] Hm. nia.
  - split; [by exists (x / n + 1)|]. split; [nia|].
    intros m [k ->] Hm. assert (x / n < k) by nia. nia.
Qed.

Lemma round_up_nonpositive_step_witness :
  round_up 7 0 = Raise ZeroDivisionError
  /\ exists r,
       round_up 7 (-5) = Ok r
       /\ (-5 | r) /\ 7 + -5 < r <= 7
       /\ forall m, (-5 | m) -> m <= 7 -> m <= r.
Proof.
  split.
  - apply (round_up_nonpositive_step 7 0); lia.
  - apply (round_up_nonpositive_step 7 (-5)); lia.
Defined.

(** ** The generated catalog *)

Lemma draw_inventory_entries e n k v :
  dict_get (draw_inventory e n) k = Some v ->
  exists i, (i < n)%nat /\ k = uuid4 e i /\ v = stock_draw e i.
Proof.
  induction n as [|n IH]; cbn [draw_inventory]; [done|].
  rewrite dict_get_dict_set. destruct (String.eqb_spec (uuid4 e n) k) as [<-|_].
  - intros [= <-]. exists n. split; [lia | done].
  - intros H. destruct (IH H) as (i & Hi & Hk & Hv). exists i. split; [lia | done].
Qed.

Lemma draw_products_entries e (Q : string -> Product -> Prop) ks : forall i acc ps,
  (forall j k m, make_price (price_draw e j) = Ok m ->
     Q k {| sku := k; title := faker_name e j;
            description := faker_sentence e j; price := m |}) ->
  (forall k p, dict_get acc k = Some p -> Q k p) ->
  draw_products e i ks acc = Ok ps ->
  forall k p, dict_get ps k = Some p -> Q k p.
Proof.
  induction ks as [|key ks IH]; intros i acc ps Hmk Hacc; cbn [draw_products].
  - intros [= <-]. exact Hacc.
  - destruct (make_price (price_draw e i)) as [m|ex] eqn:Hm; [|done].
    apply IH; [done|]. intros k p. rewrite dict_get_dict_set.
    destruct (String.eqb_spec key k) as [<-|_]; [|apply Hacc].
    intros [= <-]. by apply (Hmk i).
Qed.

Lemma make_price_range c :
  5000 <= c <= 250000 ->
  exists a, make_price c = Ok {| amount := a; currency := DKK |}
            /\ (50 <= a)%Q /\ (a <= 2500)%Q.
Proof.
  intros Hc. destruct (make_price_spec c ltac:(lia)) as (a & Ha & _ & _ & Hge & Hleast).
  exists a. split; [done|]. split.
  - eapply Qle_trans; [|exact Hge]. unfold Qle. simpl. lia.
  - apply (Hleast 500). unfold Qle. simpl. lia.
Qed.

(** X10: with draws in their ranges, initialisation succeeds, and in the
    store it builds and after any sequence of requests every stock count is
    between 0 and 10, every product carries its own key as its sku, and
    [get_product_details] succeeds for every key of the catalog, with that
    stock, the url of the detail page of that key, and the current view
    count, without changing the store. *)
Theorem generated_catalog_well_formed (e : Entropy) :
  entropy_in_range e ->
  exists st,
    init e = Ok st
    /\ forall (rs : list request) (key : string),
         (forall n, dict_get (inventory (serve rs st)) key = Some n -> 0 <= n <= 10)
         /\ (forall p, dict_get (products (serve rs st)) key = Some p -> sku p = key)
         /\ (key ∈ keys (products (serve rs st)) ->
             exists d,
               get_product_details key (serve rs st) = (Ok d, serve rs st)
               /\ sku (pd_product d) = key
               /\ 0 <= pd_inventory d <= 10
               /\ pd_url d = url_for_view_product_details key
               /\ pd_views d = view_count (serve rs st) key).
Proof.
  intros He. destruct (init_ok e) as (ps & Hinit & Hkeys).
  eexists. split; [exact Hinit|].
  unfold init in Hinit. cbv zeta in Hinit.
  destruct (draw_products e 0 (keys (draw_inventory e 100)) []) as [ps'|ex] eqn:Hps;
    [|done].
  injection Hinit as <-.
  assert (forall key n, dict_get (draw_inventory e 100) key = Some n -> 0 <= n <= 10)
    as Hstock.
  { intros key n Hn. apply draw_inventory_entries in Hn as (i & _ & _ & ->).
    apply He. }
  assert (forall key p, dict_get ps' key = Some p -> sku p = key) as Hsku.
  { apply (draw_products_entries e (fun k p => sku p = k)
             (keys (draw_inventory e 100)) 0%nat [] ps'); [done | done | exact Hps]. }
  intros rs key.
  destruct (serve_catalog rs
              {| products := ps'; inventory := draw_inventory e 100; viewings := ∅ |})
    as [Hp Hi].
  rewrite Hp, Hi. cbn [products inventory].
  split; [apply Hstock|]. split; [apply Hsku|].
  intros Hin.
  destruct (proj2 (dict_get_is_Some _ _) Hin) as [p Hpk].
  assert (key ∈ keys (draw_inventory e 100)) as Hin' by (by rewrite <- Hkeys).
  destruct (proj2 (dict_get_is_Some _ _) Hin') as [n Hn].
  eexists. split.
  { apply (get_product_details_ok _ key p n); by rewrite ?Hp, ?Hi. }
  cbn [pd_product pd_inventory pd_url pd_views].
  split; [by apply Hsku|]. split; [by apply (Hstock key)|]. done.
Qed.

Lemma generated_catalog_well_formed_witness :
  exists st,
    init demo_entropy = Ok st
    /\ forall (rs : list request) (key : string),
         (forall n, dict_get (inventory (serve rs st)) key = Some n -> 0 <= n <= 10)
         /\ (forall p, dict_get (products (serve rs st)) key = Some p -> sku p = key)
         /\ (key ∈ keys (products (serve rs st)) ->
             exists d,
               get_product_details key (serve rs st) = (Ok d, serve rs st)
               /\ sku (pd_product d) = key
               /\ 0 <= pd_inventory d <= 10
               /\ pd_url d = url_for_view_product_details key
               /\ pd_views d = view_count (serve rs st) key).
Proof. exact (generated_catalog_well_formed demo_entropy demo_entropy_in_range). Defined.

(** X11: with draws in their ranges, the price of every generated product
    is at least 50 and at most 2500 (DKK), and stays so after any sequence
    of requests. *)
Theorem generated_prices_in_range (e : Entropy) :
  entropy_in_range e ->
  exists st,
    init e = Ok st
    /\ forall (rs : list request) (key : string) (p : Product),
         dict_get (products (serve rs st)) key = Some p ->
         currency (price p) = DKK
         /\ (50 <= amount (price p))%Q /\ (amount (price p) <= 2500)%Q.
Proof.
  intros He. destruct (init_ok e) as (ps & Hinit & _).
  eexists. split; [exact Hinit|].
  unfold init in Hinit. cbv zeta in Hinit.
  destruct (draw_products e 0 (keys (draw_inventory e 100)) []) as [ps'|ex] eqn:Hps;
    [|done].
  injection Hinit as <-. intros rs key p.
  destruct (serve_catalog rs
              {| products := ps'; inventory := draw_inventory e 100; viewings := ∅ |})
    as [-> _].
  cbn [products]. revert key p.
  apply (draw_products_prices e
           (fun m => currency m = DKK /\ (50 <= amount m)%Q /\ (amount m <= 2500)%Q)
           (keys (draw_inventory e 100)) 0%nat [] ps');
    [intros j m Hm | intros k p Hk | exact Hps].
  - destruct (make_price_range (price_draw e j)) as (a & Ha & Hlo & Hhi).
    { apply He. }
    rewrite Ha in Hm. injection Hm as <-. done.
  - discriminate Hk.
Qed.

Lemma generated_prices_in_range_witness :
  exists st,
    init demo_entropy = Ok st
    /\ forall (rs : list request) (key : string) (p : Product),
         dict_get (products (serve rs st)) key = Some p ->
         currency (price p) = DKK
         /\ (50 <= amount (price p))%Q /\ (amount (price p) <= 2500)%Q.
Proof. exact (generated_prices_in_range demo_entropy demo_entropy_in_range). Defined.

Lemma draw_inventory_distinct e n :
  (forall i j, (i < n)%nat -> (j < n)%nat -> uuid4 e i = uuid4 e j -> i = j) ->
  keys (draw_inventory e n) = map (uuid4 e) (seq 0 n)
  /\ forall i, (i < n)%nat ->
       dict_get (draw_inventory e n) (uuid4 e i) = Some (stock_draw e i).
Proof.
  induction n as [|n IH]; intros Hinj.
  - split; [done | intros i Hi; lia].
  - destruct IH as [Hkeys Hget].
    { intros i j Hi Hj. apply Hinj; lia. }
    cbn [draw_inventory]. split.
    + rewrite keys_dict_set_new.
      * rewrite Hkeys, seq_S, map_app. done.
      * rewrite Hkeys. intros Hin. apply list_elem_of_fmap in Hin as (i & Hi & Hseq).
        apply elem_of_seq in Hseq. apply Hinj in Hi; lia.
    + intros i Hi. rewrite dict_get_dict_set.
      destruct (String.eqb_spec (uuid4 e n) (uuid4 e i)) as [Heq|Hne].
      * apply Hinj in Heq; [by subst | lia | lia].
      * apply Hget. assert (i <> n) by congruence. lia.
Qed.

Lemma draw_products_other e ks : forall i acc ps k,
  k ∉ ks ->
  draw_products e i ks acc = Ok ps ->
  dict_get ps k = dict_get acc k.
Proof.
  induction ks as [|key ks IH]; intros i acc ps k Hk; cbn [draw_products].
  - by intros [= <-].
  - apply not_elem_of_cons in Hk as [Hne Hk].
    destruct (make_price (price_draw e i)) as [m|ex]; [|done].
    intros Hps. rewrite (IH _ _ _ _ Hk Hps), dict_get_dict_set.
    by destruct (String.eqb_spec key k).
Qed.

Lemma draw_products_lookup e ks : forall i acc ps j k,
  NoDup ks ->
  draw_products e i ks acc = Ok ps ->
  ks !! j = Some k ->
  exists m,
    make_price (price_draw e (i + j)) = Ok m
    /\ dict_get ps k =
         Some {| sku := k; title := faker_name e (i + j);
                 description := faker_sentence e (i + j); price := m |}.
Proof.
  induction ks as [|key ks IH]; intros i acc ps j k Hnd; cbn [draw_products]; [done|].
  apply NoDup_cons in Hnd as [Hkey Hnd].
  destruct (make_price (price_draw e i)) as [m|ex] eqn:Hm; [|done].
  intros Hps Hj. destruct j as [|j]; cbn in Hj.
  - injection Hj as <-. rewrite Nat.add_0_r. exists m. split; [done|].
    rewrite (draw_products_other _ _ _ _ _ _ Hkey Hps), dict_get_dict_set.
    by rewrite String.eqb_refl.
  - rewrite Nat.add_succ_r. apply (IH (S i) _ ps j k Hnd Hps Hj).
Qed.

(** X12: when the hundred drawn identifiers are all different, the catalog
    has exactly one hundred products and one hundred stock entries, keyed by
    the identifiers in the order they were drawn, and the entries of the
    i-th identifier are the i-th draws: its stock, and a product with that
    identifier as sku, the i-th name and sentence, and the price made from
    the i-th price draw. *)
Theorem generated_catalog_size (e : Entropy) :
  (forall i j, (i < 100)%nat -> (j < 100)%nat -> uuid4 e i = uuid4 e j -> i = j) ->
  exists st,
    init e = Ok st
    /\ keys (inventory st) = map (uuid4 e) (seq 0 100)
    /\ keys (products st) = map (uuid4 e) (seq 0 100)
    /\ length (inventory st) = 100%nat
    /\ length (products st) = 100%nat
    /\ forall i, (i < 100)%nat ->
         dict_get (inventory st) (uuid4 e i) = Some (stock_draw e i)
         /\ exists m,
              make_price (price_draw e i) = Ok m
              /\ dict_get (products st) (uuid4 e i) =
                   Some {| sku := uuid4 e i; title := faker_name e i;
                           description := faker_sentence e i; price := m |}.
Proof.
  intros Hinj. destruct (init_ok e) as (ps & Hinit & Hkeys).
  destruct (draw_inventory_distinct e 100 Hinj) as [Hinv Hget].
  eexists. split; [exact Hinit|]. cbn [products inventory].
  unfold init in Hinit. cbv zeta in Hinit.
  destruct (draw_products e 0 (keys (draw_inventory e 100)) []) as [ps'|ex] eqn:Hps;
    [|done].
  injection Hinit as <-.
  split; [exact Hinv|]. split; [by rewrite Hkeys|].
  split.
  { rewrite <- (length_map fst). change (map fst (draw_inventory e 100))
      with (keys (draw_inventory e 100)).
    by rewrite Hinv, length_map, length_seq. }
  split.
  { rewrite <- (length_map fst). change (map fst ps') with (keys ps').
    by rewrite Hkeys, Hinv, length_map, length_seq. }
  intros i Hi. split; [by apply Hget|].
  apply (draw_products_lookup e _ 0%nat [] ps' i (uuid4 e i)
           (draw_inventory_NoDup e 100) Hps).
  rewrite Hinv. change (map (uuid4 e) (seq 0 100)) with (uuid4 e <$> seq 0 100).
  rewrite list_lookup_fmap, lookup_seq_lt by done. done.
Qed.

Lemma numbered_entropy_distinct :
  forall i j, (i < 100)%nat -> (j < 100)%nat ->
    uuid4 numbered_entropy i = uuid4 numbered_entropy j -> i = j.
Proof. intros i j _ _ H. exact (pretty_nat_inj i j H). Defined.

Lemma generated_catalog_size_witness :
  exists st,
    init numbered_entropy = Ok st
    /\ keys (inventory st) = map (uuid4 numbered_entropy) (seq 0 100)
    /\ keys (products st) = map (uuid4 numbered_entropy) (seq 0 100)
    /\ length (inventory st) = 100%nat
    /\ length (products st) = 100%nat
    /\ forall i, (i < 100)%nat ->
         dict_get (inventory st) (uuid4 numbered_entropy i)
           = Some (stock_draw numbered_entropy i)
         /\ exists m,
              make_price (price_draw numbered_entropy i) = Ok m
              /\ dict_get (products st) (uuid4 numbered_entropy i) =
                   Some {| sku := uuid4 numbered_entropy i;
                           title := faker_name numbered_entropy i;
                           description := faker_sentence numbered_entropy i;
                           price := m |}.
Proof. exact (generated_catalog_size numbered_entropy numbered_entropy_distinct). Defined.

(* ===================================================================== *)
(** * Further properties of the queue client *)
(* ===================================================================== *)

Lemma str_int_short z :
  Z.abs z < 10 ^ int_max_str_digits -> str_int z = Ok (pretty z).
Proof.
  intros Hz. unfold str_int.
  by destruct (Z.leb_spec (10 ^ int_max_str_digits) (Z.abs z)); [lia|].
Qed.

Lemma str_int_long z :
  10 ^ int_max_str_digits <= Z.abs z -> str_int z = Raise ValueError.
Proof.
  intros Hz. unfold str_int.
  by destruct (Z.leb_spec (10 ^ int_max_str_digits) (Z.abs z)); [|lia].
Qed.

Lemma format_short key :
  (forall z, key = PyInt z -> Z.abs z < 10 ^ int_max_str_digits) ->
  format key = Ok (str key).
Proof.
  intros Hkey. destruct key as [z|s|]; cbn [format str]; try done.
  apply str_int_short. by apply Hkey.
Qed.

(** X13: [get_queue] and [get_queueset] send exactly one GET request, to the
    base URI followed by [/] and the key as a string (whatever the key is:
    it is not checked) and to the base URI itself; when the remote service
    answers outside the 4xx and 5xx statuses with a JSON object that has a
    [data] member, they return that member.  For [get_queue] the key must
    have a string form: an [int] key of more than 4300 digits has none. *)
Theorem get_returns_data
    (self : Miniq.Miniq) (key : pyvalue) (net : Miniq.Net)
    (obj : dict string) (v : string) :
  let one := {| Miniq.req_method := Miniq.GET;
                Miniq.req_url := Miniq.uri self +:+ "/" +:+ str key;
                Miniq.req_data := None |} in
  let all := {| Miniq.req_method := Miniq.GET;
                Miniq.req_url := Miniq.uri self;
                Miniq.req_data := None |} in
  (forall r, Miniq.status_code (Miniq.upstream net r) < 400
             \/ 600 <= Miniq.status_code (Miniq.upstream net r)) ->
  (forall r, Miniq.json (Miniq.upstream net r) = Some obj) ->
  dict_get obj "data" = Some v ->
  (forall z, key = PyInt z -> Z.abs z < 10 ^ int_max_str_digits) ->
  Miniq.get_queue self key net
    = (Ok v, {| Miniq.upstream := Miniq.upstream net;
                Miniq.sent := Miniq.sent net ++ [one] |})
  /\ Miniq.get_queueset self net
    = (Ok v, {| Miniq.upstream := Miniq.upstream net;
                Miniq.sent := Miniq.sent net ++ [all] |}).
Proof.
  intros one all Hstatus Hjson Hdata Hkey.
  unfold Miniq.get_queue, Miniq.get_queueset, Miniq.requests_get, Miniq.send,
    bind, lift, Miniq.raise_for_status, Miniq.json_data, getitem.
  rewrite (format_short key Hkey).
  fold one all. rewrite !Hjson, Hdata.
  split.
  - destruct (Hstatus one) as [H|H].
    + destruct (Z.leb_spec 400 (Miniq.status_code (Miniq.upstream net one)));
        [lia | done].
    + destruct (Z.ltb_spec (Miniq.status_code (Miniq.upstream net one)) 600);
        [lia | by rewrite andb_false_r].
  - destruct (Hstatus all) as [H|H].
    + destruct (Z.leb_spec 400 (Miniq.status_code (Miniq.upstream net all)));
        [lia | done].
    + destruct (Z.ltb_spec (Miniq.status_code (Miniq.upstream net all)) 600);
        [lia | by rewrite andb_false_r].
Qed.

Lemma get_returns_data_witness :
  Miniq.get_queue demo_client (PyStr "k") demo_net
    = (Ok "[]",
       {| Miniq.upstream := Miniq.upstream demo_net;
          Miniq.sent := [ {| Miniq.req_method := Miniq.GET;
                             Miniq.req_url := "http://queue.example/k";
                             Miniq.req_data := None |} ] |})
  /\ Miniq.get_queueset demo_client demo_net
    = (Ok "[]",
       {| Miniq.upstream := Miniq.upstream demo_net;
          Miniq.sent := [ {| Miniq.req_method := Miniq.GET;
                             Miniq.req_url := "http://queue.example";
                             Miniq.req_data := None |} ] |}).
Proof.
  apply (get_returns_data demo_client (PyStr "k") demo_net [("data", "[]")] "[]").
  - intros r. left. simpl. lia.
  - intros r. reflexivity.
  - reflexivity.
  - intros z Hz. discriminate Hz.
Defined.

(** X14: [create_job] depends on its key only through [int]: a key that
    [int] reads as [z] (the integer itself, or a string such as " 42 " or
    "4_2") gives the same result as the key [z]; and when [z] has at most
    4300 digits exactly one POST request is
    sent, to the base URI followed by [/] and the decimal form of [z], with
    the payload as its body. *)
Theorem create_job_normalises_key
    (self : Miniq.Miniq) (key : pyvalue) (z : Z) (data : string) (net : Miniq.Net) :
  int key = Ok z ->
  Miniq.create_job self key data net = Miniq.create_job self (PyInt z) data net
  /\ (Z.abs z < 10 ^ int_max_str_digits ->
      Miniq.sent (snd (Miniq.create_job self key data net))
      = (Miniq.sent net
         ++ [ {| Miniq.req_method := Miniq.POST;
                 Miniq.req_url := Miniq.uri self +:+ "/" +:+ pretty z;
                 Miniq.req_data := Some data |} ])%list).
Proof.
  intros Hkey.
  unfold Miniq.create_job, Miniq.requests_post, Miniq.send, bind, lift.
  rewrite Hkey. cbn [int]. split; [done|].
  intros Hz. rewrite (str_int_short z Hz).
  destruct (Miniq.raise_for_status _); [|done].
  by destruct (Miniq.json_data _).
Qed.

Lemma padded_42_is_integer : int (PyStr " 4_2 ") = Ok 42.
Proof. reflexivity. Defined.

Lemma forty_two_is_short : Z.abs 42 < 10 ^ int_max_str_digits.
Proof. reflexivity. Defined.

Lemma create_job_normalises_key_witness :
  Miniq.create_job demo_client (PyStr " 4_2 ") "payload" demo_net
    = Miniq.create_job demo_client (PyInt 42) "payload" demo_net
  /\ Miniq.sent (snd (Miniq.create_job demo_client (PyStr " 4_2 ") "payload" demo_net))
     = (Miniq.sent demo_net
        ++ [ {| Miniq.req_method := Miniq.POST;
                Miniq.req_url := Miniq.uri demo_client +:+ "/" +:+ pretty 42;
                Miniq.req_data := Some "payload" |} ])%list.
Proof.
  destruct (create_job_normalises_key demo_client (PyStr " 4_2 ") 42 "payload"
              demo_net padded_42_is_integer) as [Hsame Hsent].
  split; [exact Hsame | exact (Hsent forty_two_is_short)].
Defined.

(** X15: when the remote service answers with a 4xx or 5xx status, each of
    the three operations, called with a key that [int] reads as an integer
    of at most 4300 digits, raises [HTTPError] with that status, after its
    one request has been sent; the body of the answer is not looked at. *)
Theorem remote_failure_raises
    (self : Miniq.Miniq) (key : pyvalue) (z : Z) (data : string) (net : Miniq.Net) :
  (forall r, 400 <= Miniq.status_code (Miniq.upstream net r) < 600) ->
  int key = Ok z ->
  Z.abs z < 10 ^ int_max_str_digits ->
  (exists status r,
     Miniq.create_job self key data net
       = (Raise (HTTPError status),
          {| Miniq.upstream := Miniq.upstream net;
             Miniq.sent := Miniq.sent net ++ [r] |})
     /\ status = Miniq.status_code (Miniq.upstream net r)
     /\ Miniq.req_method r = Miniq.POST)
  /\ (exists status r,
        Miniq.get_queueset self net
          = (Raise (HTTPError status),
             {| Miniq.upstream := Miniq.upstream net;
                Miniq.sent := Miniq.sent net ++ [r] |})
        /\ status = Miniq.status_code (Miniq.upstream net r)
        /\ Miniq.req_method r = Miniq.GET)
  /\ (exists status r,
        Miniq.get_queue self key net
          = (Raise (HTTPError status),
             {| Miniq.upstream := Miniq.upstream net;
                Miniq.sent := Miniq.sent net ++ [r] |})
        /\ status = Miniq.status_code (Miniq.upstream net r)
        /\ Miniq.req_method r = Miniq.GET).
Proof.
  intros Hfail Hkey Hz.
  assert (forall r, Miniq.raise_for_status (Miniq.upstream net r)
                    = Raise (HTTPError (Miniq.status_code (Miniq.upstream net r))))
    as Hraise.
  { intros r. unfold Miniq.raise_for_status. specialize (Hfail r).
    destruct (Z.leb_spec 400 (Miniq.status_code (Miniq.upstream net r))); [|lia].
    destruct (Z.ltb_spec (Miniq.status_code (Miniq.upstream net r)) 600); [done|lia]. }
  assert (format key = Ok (str key)) as Hformat.
  { apply format_short. intros z' ->. cbn [int] in Hkey. by injection Hkey as ->. }
  unfold Miniq.create_job, Miniq.get_queueset, Miniq.get_queue,
    Miniq.requests_post, Miniq.requests_get, Miniq.send, bind, lift.
  rewrite Hkey, (str_int_short z Hz), Hformat, !Hraise.
  split; [|split]; eexists _, _; (split; [reflexivity|]); by split.
Qed.

Lemma seven_is_short : Z.abs 7 < 10 ^ int_max_str_digits.
Proof. reflexivity. Defined.

Lemma remote_failure_raises_witness :
  (exists status r,
     Miniq.create_job demo_client (PyInt 7) "payload" failing_net
       = (Raise (HTTPError status),
          {| Miniq.upstream := Miniq.upstream failing_net;
             Miniq.sent := Miniq.sent failing_net ++ [r] |})
     /\ status = Miniq.status_code (Miniq.upstream failing_net r)
     /\ Miniq.req_method r = Miniq.POST)
  /\ (exists status r,
        Miniq.get_queueset demo_client failing_net
          = (Raise (HTTPError status),
             {| Miniq.upstream := Miniq.upstream failing_net;
                Miniq.sent := Miniq.sent failing_net ++ [r] |})
        /\ status = Miniq.status_code (Miniq.upstream failing_net r)
        /\ Miniq.req_method r = Miniq.GET)
  /\ (exists status r,
        Miniq.get_queue demo_client (PyInt 7) failing_net
          = (Raise (HTTPError status),
             {| Miniq.upstream := Miniq.upstream failing_net;
                Miniq.sent := Miniq.sent failing_net ++ [r] |})
        /\ status = Miniq.status_code (Miniq.upstream failing_net r)
        /\ Miniq.req_method r = Miniq.GET).
Proof.
  apply (remote_failure_raises demo_client (PyInt 7) 7 "payload" failing_net).
  - intros r. simpl. lia.
  - reflexivity.
  - exact seven_is_short.
Defined.

(** X20: an [int] key whose decimal form has more than 4300 digits has no
    string form: [create_job] and [get_queue] raise [ValueError] when they
    format it into the address, and no request has been sent. *)
Theorem oversized_key_sends_nothing
    (self : Miniq.Miniq) (z : Z) (data : string) (net : Miniq.Net) :
  10 ^ int_max_str_digits <= Z.abs z ->
  Miniq.create_job self (PyInt z) data net = (Raise ValueError, net)
  /\ Miniq.get_queue self (PyInt z) net = (Raise ValueError, net).
Proof.
  intros Hz. unfold Miniq.create_job, Miniq.get_queue, bind, lift.
  cbn [int format]. by rewrite (str_int_long z Hz).
Qed.

Lemma ten_to_the_4300_is_long :
  10 ^ int_max_str_digits <= Z.abs (10 ^ 4300).
Proof. vm_compute. discriminate. Defined.

Lemma oversized_key_sends_nothing_witness :
  Miniq.create_job demo_client (PyInt (10 ^ 4300)) "payload" demo_net
    = (Raise ValueError, demo_net)
  /\ Miniq.get_queue demo_client (PyInt (10 ^ 4300)) demo_net
    = (Raise ValueError, demo_net).
Proof.
  exact (oversized_key_sends_nothing demo_client (10 ^ 4300) "payload" demo_net
           ten_to_the_4300_is_long).
Defined.

(** ** The base URI *)

Section UrlShape.
Import UrlParse.

Lemma find_take_none c s : forall n,
  match find c s with Some i => (n <= i)%nat | None => True end ->
  find c (take n s) = None.
Proof.
  induction s as [|a s IH]; intros [|n]; cbn [find take]; try done.
  destruct (Ascii.eqb a c); [lia|].
  intros H. rewrite IH; [done|]. destruct (find c s); cbn in *; lia.
Qed.

Lemma find_take_absent c s n : find c s = None -> find c (take n s) = None.
Proof. intros H. apply find_take_none. by rewrite H. Qed.

Lemma find_take_found c s i : find c s = Some i -> find c (take i s) = None.
Proof. intros H. apply find_take_none. by rewrite H. Qed.

Lemma find_append_none c s1 s2 :
  find c s1 = None -> find c s2 = None -> find c (s1 +:+ s2) = None.
Proof.
  induction s1 as [|a s1 IH]; [done|].
  change (String a s1 +:+ s2) with (String a (s1 +:+ s2)). cbn [find].
  destruct (Ascii.eqb a c); [done|].
  intros H1 H2. rewrite IH; [done | | done]. by destruct (find c s1).
Qed.

Lemma scheme_char_lower a c :
  c = "?"%char \/ c = "#"%char ->
  scheme_char a = true -> Ascii.eqb (to_lower a) c = false.
Proof.
  intros [-> | ->];
    destruct a as [[] [] [] [] [] [] [] []]; vm_compute; congruence.
Qed.

Lemma scheme_no_delimiter c t :
  c = "?"%char \/ c = "#"%char ->
  all_chars scheme_char t = true -> find c (map_chars to_lower t) = None.
Proof.
  intros Hc. induction t as [|a t IH]; cbn [all_chars map_chars find]; [done|].
  intros [Ha Ht]%andb_prop. by rewrite (scheme_char_lower a c Hc Ha), IH.
Qed.

Lemma split1_before c s a b :
  split1 c s = Some (a, b) -> exists i, find c s = Some i /\ a = take i s.
Proof.
  unfold split1. destruct (find c s) as [i|]; [|done].
  intros [= <- <-]. by exists i.
Qed.

Lemma split1_none c s : split1 c s = None -> find c s = None.
Proof. unfold split1. by destruct (find c s). Qed.

Lemma splitnetloc_netloc c url start :
  c = "?"%char \/ c = "#"%char ->
  find c (_splitnetloc url start).1 = None.
Proof.
  intros Hc. unfold _splitnetloc, find_from. cbn [fold_left fst].
  apply find_take_none.
  destruct (find c (drop start url)) as [i|] eqn:Hi; [|done].
  destruct Hc as [-> | ->]; rewrite Hi; cbn [fmap option_fmap option_map];
    destruct (find "/" (drop start url)), (find "?" (drop start url)), (find "#" (drop start url));
    cbn [fmap option_fmap option_map]; try discriminate; injection Hi as ->; lia.
Qed.

Lemma urlsplit_no_delimiter chk url0 s n p q f c :
  c = "?"%char \/ c = "#"%char ->
  urlsplit chk url0 = Ok (s, n, p, q, f) ->
  find c s = None /\ find c n = None /\ find c p = None.
Proof.
  intros Hc. unfold urlsplit.
  set (url1 := filter_chars _ _).
  assert (exists sch u2,
            match find ":" url1, url1 with
            | Some (S i), String c0 _ =>
                if is_alpha c0 && all_chars scheme_char (take (S i) url1)
                then (map_chars to_lower (take (S i) url1), drop (S (S i)) url1)
                else ("", url1)
            | _, _ => ("", url1)
            end = (sch, u2) /\ find c sch = None) as (sch & u2 & -> & Hsch).
  { destruct (find ":" url1) as [[|i]|]; [by eexists _, _ | | by eexists _, _].
    destruct url1 as [|c0 rest] eqn:Hurl; [by eexists _, _|]. rewrite <- Hurl.
    destruct (is_alpha c0); [|by eexists _, _]. cbn [andb].
    destruct (all_chars scheme_char (take (S i) url1)) eqn:Hall; [|by eexists _, _].
    eexists _, _. split; [done|]. by apply scheme_no_delimiter. }
  assert (forall netloc u,
            find c netloc = None ->
            (let '(url, fragment) :=
               match split1 "#" u with Some x => x | None => (u, "") end in
             let '(url, query) :=
               match split1 "?" url with Some x => x | None => (url, "") end in
             Ok (sch, netloc, url, query, fragment)) = Ok (s, n, p, q, f) ->
            find c s = None /\ find c n = None /\ find c p = None) as Hrest.
  { intros netloc u Hnet.
    destruct (split1 "#" u) as [[a b]|] eqn:Hfrag.
    - apply split1_before in Hfrag as (i & Hi & ->).
      destruct (split1 "?" (take i u)) as [[a' b']|] eqn:Hq.
      + apply split1_before in Hq as (j & Hj & ->). intros [= <- <- <- <- <-].
        split; [done|]. split; [done|].
        destruct Hc as [-> | ->]; [by apply find_take_found|].
        by apply find_take_absent, find_take_found.
      + apply split1_none in Hq. intros [= <- <- <- <- <-].
        split; [done|]. split; [done|].
        destruct Hc as [-> | ->]; [done | by apply find_take_found].
    - apply split1_none in Hfrag.
      destruct (split1 "?" u) as [[a' b']|] eqn:Hq.
      + apply split1_before in Hq as (j & Hj & ->). intros [= <- <- <- <- <-].
        split; [done|]. split; [done|].
        destruct Hc as [-> | ->]; [by apply find_take_found | by apply find_take_absent].
      + apply split1_none in Hq. intros [= <- <- <- <- <-].
        split; [done|]. split; [done|]. by destruct Hc as [-> | ->]. }
  destruct (String.eqb (take 2 u2) "//").
  - pose proof (splitnetloc_netloc c u2 2 Hc) as Hnet.
    destruct (_splitnetloc u2 2) as [netloc u3]. cbn [fst] in Hnet.
    destruct (contains "[" netloc && negb (contains "]" netloc)
              || contains "]" netloc && negb (contains "[" netloc)); [done|].
    destruct (contains "[" netloc && contains "]" netloc
              && negb (chk netloc)); [done|].
    by apply Hrest.
  - apply Hrest. by destruct Hc as [-> | ->].
Qed.

Lemma splitparams_path c url :
  find c url = None -> find c (_splitparams url).1 = None.
Proof.
  intros H. unfold _splitparams.
  destruct (rfind "/" url) as [slash|].
  - destruct (find_from ";" url slash); cbn [fst]; [by apply find_take_absent | done].
  - destruct (find ";" url); cbn [fst]; by apply find_take_absent.
Qed.

Lemma urlparse_no_delimiter chk url0 url c :
  c = "?"%char \/ c = "#"%char ->
  urlparse chk url0 = Ok url ->
  find c (scheme url) = None /\ find c (netloc url) = None /\ find c (path url) = None.
Proof.
  intros Hc. unfold urlparse.
  destruct (urlsplit chk url0) as [[[[[s n] p] q] f]|e] eqn:Hsplit; [|done].
  destruct (urlsplit_no_delimiter chk url0 s n p q f c Hc Hsplit) as (Hs & Hn & Hp).
  destruct (bool_decide (s ∈ uses_params) && contains ";" p).
  - pose proof (splitparams_path c p Hp) as Hpp.
    destruct (_splitparams p) as [p' params']. intros [= <-]. done.
  - intros [= <-]. done.
Qed.
End UrlShape.

(** X16: whatever string the client is configured with, the base URI of a
    constructed client contains neither [?] nor [#]: a query and a fragment
    are never carried into it, so appending [/key] always extends the path. *)
Theorem base_uri_has_no_query (chk : string -> bool) (hostname : string)
    (self : Miniq.Miniq) :
  Miniq.__init__ chk hostname = Ok self ->
  UrlParse.contains "?" (Miniq.uri self) = false
  /\ UrlParse.contains "#" (Miniq.uri self) = false.
Proof.
  unfold Miniq.__init__.
  destruct (UrlParse.urlparse chk hostname) as [url|e] eqn:Hurl; [|done].
  intros [= <-]. cbn [Miniq.uri]. unfold UrlParse.contains.
  destruct (urlparse_no_delimiter chk hostname url "?" ltac:(by left) Hurl)
    as (Hs1 & Hn1 & Hp1).
  destruct (urlparse_no_delimiter chk hostname url "#" ltac:(by right) Hurl)
    as (Hs2 & Hn2 & Hp2).
  destruct (negb _ && negb _).
  - by rewrite (find_append_none "?" _ _ Hs1 (find_append_none "?" "://" _ eq_refl Hn1)),
       (find_append_none "#" _ _ Hs2 (find_append_none "#" "://" _ eq_refl Hn2)).
  - by rewrite (find_append_none "?" "http://" _ eq_refl Hp1),
       (find_append_none "#" "http://" _ eq_refl Hp2).
Qed.

Section SchemeHost.
Import UrlParse.

Lemma append_cons a s1 s2 : String a s1 +:+ s2 = String a (s1 +:+ s2).
Proof. reflexivity. Qed.

Lemma append_nil s : "" +:+ s = s.
Proof. reflexivity. Qed.

Lemma length_append s1 s2 :
  String.length (s1 +:+ s2) = (String.length s1 + String.length s2)%nat.
Proof.
  induction s1 as [|a s1 IH]; [done|].
  rewrite append_cons. cbn [String.length]. by rewrite IH.
Qed.

Lemma filter_chars_append p s1 s2 :
  filter_chars p (s1 +:+ s2) = filter_chars p s1 +:+ filter_chars p s2.
Proof.
  induction s1 as [|a s1 IH]; [done|].
  rewrite append_cons. cbn [filter_chars]. rewrite IH. by destruct (p a).
Qed.

Lemma find_append c s1 s2 :
  find c (s1 +:+ s2) =
    match find c s1 with
    | Some i => Some i
    | None => (fun i => (String.length s1 + i)%nat) <$> find c s2
    end.
Proof.
  induction s1 as [|a s1 IH].
  - rewrite append_nil. by destruct (find c s2).
  - rewrite append_cons. cbn [find String.length]. rewrite IH.
    destruct (Ascii.eqb a c); [done|].
    destruct (find c s1); [done|]. by destruct (find c s2).
Qed.

Lemma take_append s1 s2 : take (String.length s1) (s1 +:+ s2) = s1.
Proof.
  induction s1 as [|a s1 IH].
  - rewrite append_nil. by destruct s2.
  - rewrite append_cons. cbn [String.length take]. by rewrite IH.
Qed.

Lemma drop_append s1 s2 k :
  drop (String.length s1 + k) (s1 +:+ s2) = drop k s2.
Proof.
  induction s1 as [|a s1 IH]; [done|].
  rewrite append_cons. cbn [String.length Nat.add drop]. by rewrite IH.
Qed.

Lemma scheme_char_facts c :
  scheme_char c = true ->
  c0_control_or_space c = false /\ unsafe_url_byte c = false
  /\ Ascii.eqb c ":" = false.
Proof.
  destruct c as [[] [] [] [] [] [] [] []]; vm_compute; intros H;
    (discriminate H || done).
Qed.

Lemma is_alpha_scheme_char c : is_alpha c = true -> scheme_char c = true.
Proof. unfold scheme_char. by intros ->. Qed.

Lemma splitnetloc_authority h tail :
  (forall c, c = "/"%char \/ c = "?"%char \/ c = "#"%char -> find c h = None) ->
  url_tail tail = true ->
  _splitnetloc ("//" +:+ h +:+ tail) 2 = (h, tail).
Proof.
  intros Hfind Htail. unfold _splitnetloc, find_from.
  change (drop 2 ("//" +:+ h +:+ tail)) with (h +:+ tail).
  change (String.length ("//" +:+ h +:+ tail))
    with (S (S (String.length (h +:+ tail)))).
  rewrite length_append.
  set (delim := fold_left _ _ _).
  assert (delim = (2 + String.length h)%nat) as ->.
  { unfold delim. cbn [fold_left]. rewrite !find_append, !Hfind by auto.
    destruct tail as [|c r].
    - cbn [find fmap option_fmap option_map String.length]. lia.
    - assert (find "/" (String c r) = Some 0%nat \/ find "?" (String c r) = Some 0%nat
              \/ find "#" (String c r) = Some 0%nat) as Hcase.
      { cbn [url_tail] in Htail. cbn [find].
        destruct (Ascii.eqb c "/"); [by left|].
        destruct (Ascii.eqb c "?"); [by right; left|].
        destruct (Ascii.eqb c "#"); [by right; right | done]. }
      destruct (find "/" (String c r)) as [i1|], (find "?" (String c r)) as [i2|],
        (find "#" (String c r)) as [i3|];
        cbn [fmap option_fmap option_map];
        destruct Hcase as [H | [H | H]]; try discriminate H;
        injection H as ->; cbn [String.length]; lia. }
  f_equal.
  - replace (2 + String.length h - 2)%nat with (String.length h) by lia.
    apply take_append.
  - change (drop (2 + String.length h) ("//" +:+ h +:+ tail))
      with (drop (String.length h) (h +:+ tail)).
    replace (String.length h) with (String.length h + 0)%nat at 1 by lia.
    by rewrite drop_append.
Qed.

Lemma urlsplit_scheme_authority chk sch h rest :
  scheme_name sch = true -> authority h = true -> url_tail rest = true ->
  exists p q f,
    urlsplit chk (sch +:+ "://" +:+ h +:+ rest)
    = Ok (map_chars to_lower sch, h, p, q, f).
Proof.
  unfold scheme_name, authority.
  intros [Hfirst Hsch]%andb_prop [Hne Hh]%andb_prop Htail.
  destruct sch as [|c0 sch']; [done|]. set (sch := String c0 sch') in *.
  assert (find ":" sch = None) as Hcolon.
  { apply find_absent. eapply all_chars_impl; [|exact Hsch].
    intros a Ha. destruct (scheme_char_facts a Ha) as (_ & _ & ->). done. }
  assert (filter_chars (fun c => negb (unsafe_url_byte c)) sch = sch) as Hfs.
  { apply filter_chars_all. eapply all_chars_impl; [|exact Hsch].
    intros a Ha. destruct (scheme_char_facts a Ha) as (_ & -> & _). done. }
  assert (filter_chars (fun c => negb (unsafe_url_byte c)) h = h) as Hfh.
  { apply filter_chars_all. eapply all_chars_impl; [|exact Hh].
    intros a Ha. by repeat (apply andb_prop in Ha as [Ha ?]). }
  assert (forall c, c = "/"%char \/ c = "?"%char \/ c = "#"%char
                    \/ c = "["%char \/ c = "]"%char -> find c h = None) as Hfind.
  { intros c Hc. apply find_absent. eapply all_chars_impl; [|exact Hh].
    intros a Ha.
    apply andb_prop in Ha as [Ha H5]. apply andb_prop in Ha as [Ha H4].
    apply andb_prop in Ha as [Ha H3]. apply andb_prop in Ha as [Ha H2].
    apply andb_prop in Ha as [_ H1].
    destruct Hc as [-> | [-> | [-> | [-> | ->]]]]; done. }
  set (tail := filter_chars (fun c => negb (unsafe_url_byte c)) rest).
  assert (url_tail tail = true) as Htail'.
  { unfold tail. destruct rest as [|c r]; [done|]. cbn [url_tail] in Htail.
    cbn [filter_chars].
    assert (unsafe_url_byte c = false) as ->.
    { destruct (Ascii.eqb_spec c "/") as [->|]; [done|].
      destruct (Ascii.eqb_spec c "?") as [->|]; [done|].
      destruct (Ascii.eqb_spec c "#") as [->|]; [done | done]. }
    done. }
  unfold urlsplit.
  assert (lstrip c0_control_or_space (sch +:+ "://" +:+ h +:+ rest)
          = sch +:+ "://" +:+ h +:+ rest) as ->.
  { unfold sch. rewrite append_cons. cbn [lstrip].
    destruct (scheme_char_facts c0 (is_alpha_scheme_char c0 Hfirst)) as (-> & _ & _).
    done. }
  rewrite !filter_chars_append, Hfs, Hfh. fold tail.
  change (filter_chars (fun c => negb (unsafe_url_byte c)) "://") with "://".
  set (U := sch +:+ "://" +:+ h +:+ tail).
  assert (find ":" U = Some (S (String.length sch'))) as ->.
  { unfold U. rewrite find_append, Hcolon.
    change (find ":" ("://" +:+ h +:+ tail)) with (Some 0%nat).
    cbn [fmap option_fmap option_map]. by rewrite Nat.add_0_r. }
  assert (take (S (String.length sch')) U = sch) as Htake.
  { apply (take_append sch). }
  assert (drop (S (S (String.length sch'))) U = "//" +:+ h +:+ tail) as Hdrop.
  { change (S (S (String.length sch'))) with (S (String.length sch)).
    replace (S (String.length sch)) with (String.length sch + 1)%nat by lia.
    unfold U. by rewrite drop_append. }
  destruct U as [|c1 U'] eqn:HU; [done|]. rewrite <- HU.
  assert (c1 = c0) as -> by (by injection HU).
  rewrite <- HU in Htake, Hdrop.
  rewrite Htake, Hdrop, Hfirst, Hsch. cbn [andb].
  change (take 2 ("//" +:+ h +:+ tail)) with "//".
  change ("//" =? "//")%string with true. cbv iota.
  rewrite splitnetloc_authority; [|intros c Hc; apply Hfind; tauto|done].
  unfold contains. rewrite !Hfind by auto 6. cbn [andb orb negb].
  destruct (match split1 "#" tail with Some x => x | None => (tail, "") end)
    as [u frag].
  destruct (match split1 "?" u with Some x => x | None => (u, "") end)
    as [p q].
  by eexists _, _, _.
Qed.

Lemma map_chars_nonempty f s : s <> "" -> map_chars f s <> "".
Proof. by destruct s. Qed.

End SchemeHost.

(** X17: for a configured string of the form scheme [://] host, optionally
    followed by a path, a query or a fragment, the base URI is the scheme in
    lower case, [://] and the host (with its port, if any); what follows the
    host is dropped. *)
Theorem base_uri_of_url (chk : string -> bool) (sch h rest : string) :
  scheme_name sch = true -> authority h = true -> url_tail rest = true ->
  Miniq.__init__ chk (sch +:+ "://" +:+ h +:+ rest)
  = Ok {| Miniq.uri := UrlParse.map_chars UrlParse.to_lower sch +:+ "://" +:+ h |}.
Proof.
  intros Hsch Hh Htail.
  destruct (urlsplit_scheme_authority chk sch h rest Hsch Hh Htail)
    as (p & q & f & Hsplit).
  unfold Miniq.__init__, UrlParse.urlparse. rewrite Hsplit.
  destruct (bool_decide _ && UrlParse.contains ";" p);
    [destruct (UrlParse._splitparams p) as [p' params']|];
    cbn [UrlParse.scheme UrlParse.netloc UrlParse.path].
  all: unfold authority in Hh; apply andb_prop in Hh as [Hne _].
  all: unfold scheme_name in Hsch; apply andb_prop in Hsch as [Hfirst _].
  all: destruct sch as [|c0 sch']; [done|]; cbn [UrlParse.map_chars String.eqb].
  all: by rewrite Hne.
Qed.

Lemma base_uri_has_no_query_witness :
  UrlParse.contains "?" (Miniq.uri {| Miniq.uri := "http://example.com" |}) = false
  /\ UrlParse.contains "#" (Miniq.uri {| Miniq.uri := "http://example.com" |}) = false.
Proof.
  apply (base_uri_has_no_query accept_bracketed "example.com?x=1#top").
  reflexivity.
Defined.

Lemma base_uri_of_url_witness :
  Miniq.__init__ accept_bracketed ("HTTPS" +:+ "://" +:+ "localhost:3000" +:+ "/jobs?x=1")
  = Ok {| Miniq.uri :=
            UrlParse.map_chars UrlParse.to_lower "HTTPS" +:+ "://" +:+ "localhost:3000" |}.
Proof.
  apply (base_uri_of_url accept_bracketed "HTTPS" "localhost:3000" "/jobs?x=1");
    reflexivity.
Defined.

(** ** The most viewed product *)

Lemma catalog_details_elem st d :
  d ∈ catalog_details st -> exists sku, details_of st sku d.
Proof.
  unfold catalog_details. intros Hd.
  apply list_elem_of_omap in Hd as ([sku p] & _ & Hit). cbn [fst] in Hit.
  destruct (dict_get (inventory st) sku) as [n|] eqn:Hn; [|done].
  destruct (dict_get (products st) sku) as [p'|] eqn:Hp; [|done].
  destruct (0 <? n); [|done]. injection Hit as <-.
  exists sku. by repeat split.
Qed.

Lemma catalog_details_has st sku n :
  sku ∈ keys (products st) ->
  dict_get (inventory st) sku = Some n -> 0 < n ->
  exists d, d ∈ catalog_details st /\ details_of st sku d.
Proof.
  intros Hin Hn Hpos.
  apply list_elem_of_fmap in Hin as ([sku' p] & -> & Hit). cbn [fst] in *.
  destruct (proj2 (dict_get_is_Some (products st) sku')) as [p' Hp'].
  { by apply (list_elem_of_fmap_2 fst) in Hit. }
  exists {| pd_product := p'; pd_inventory := n;
            pd_url := url_for_view_product_details sku';
            pd_views := view_count st sku' |}.
  split; [|by repeat split].
  unfold catalog_details. apply list_elem_of_omap.
  exists (sku', p). split; [done|]. cbn [fst].
  rewrite Hn, Hp'. by destruct (Z.ltb_spec 0 n); [|lia].
Qed.

Lemma details_of_unique st sku d d' :
  details_of st sku d -> details_of st sku d' -> d = d'.
Proof.
  destruct d as [p n u v], d' as [p' n' u' v'].
  intros (Hp & Hn & Hu & Hv) (Hp' & Hn' & Hu' & Hv'). cbn in *.
  congruence.
Qed.

(** X18: a product in stock whose view count is greater than that of every
    other sku comes first: [get_popular_products(1)] returns exactly its
    details. *)
Theorem most_viewed_comes_first (st : Store) (sku : string) (n : Z) :
  same_keys st ->
  sku ∈ keys (products st) ->
  dict_get (inventory st) sku = Some n -> 0 < n ->
  (forall other, other <> sku -> view_count st other < view_count st sku) ->
  exists d,
    get_popular_products 1 st = (Ok [d], st) /\ details_of st sku d.
Proof.
  intros Hk Hin Hn Hpos Hmost.
  destruct (catalog_details_has st sku n Hin Hn Hpos) as (d & Hd & Hdet).
  rewrite (get_popular_products_eq st 1 Hk).
  pose proof (sorted_by_views_desc_sorted (catalog_details st)) as Hsorted.
  pose proof (sorted_by_views_desc_perm (catalog_details st)) as Hperm.
  rewrite <- Hperm in Hd.
  destruct (sorted_by_views_desc (catalog_details st)) as [|top ranking];
    [by apply elem_of_nil in Hd|].
  exists top. split; [done|].
  assert (top ∈ catalog_details st) as Htop by (rewrite <- Hperm; left).
  destruct (catalog_details_elem st top Htop) as [sku' Hdet'].
  apply elem_of_cons in Hd as [->|Hd]; [done|].
  apply StronglySorted_inv in Hsorted as [_ Hall].
  rewrite Forall_forall in Hall. specialize (Hall d Hd). unfold by_views_desc in Hall.
  destruct Hdet as (Hp & Hi & Hu & Hv), Hdet' as (Hp' & Hi' & Hu' & Hv').
  destruct (decide (sku' = sku)) as [->|Hne]; [by repeat split|].
  specialize (Hmost sku' Hne). lia.
Qed.

Lemma demo_store_sku_3_most_viewed :
  forall other, other <> "sku-3" ->
    view_count demo_store other < view_count demo_store "sku-3".
Proof.
  intros other Hne. unfold view_count, demo_store. cbn [viewings].
  rewrite lookup_singleton_eq, lookup_singleton_ne by done. reflexivity.
Defined.

Lemma most_viewed_comes_first_witness :
  exists d,
    get_popular_products 1 demo_store = (Ok [d], demo_store)
    /\ details_of demo_store "sku-3" d.
Proof.
  apply (most_viewed_comes_first demo_store "sku-3" 7).
  - exact demo_store_same_keys.
  - right. right. left.
  - reflexivity.
  - lia.
  - exact demo_store_sku_3_most_viewed.
Defined.

(** ** The inventory routes *)

(** X19: after any sequence of requests the inventory dump is still the
    inventory the requests started from, and the single-entry route answers
    with exactly the count the dump has for the sku, or raises the
    missing-key error when the dump has none; neither changes the store. *)
Theorem inventory_routes_agree (st : Store) (rs : list request) (sku : string) :
  dispatch GET_api_inventory (serve rs st)
    = (Ok (jsonify (Inventory (inventory st))), serve rs st)
  /\ dispatch (GET_api_inventory_sku sku) (serve rs st)
    = (match dict_get (inventory st) sku with
       | Some n => Ok (jsonify (InventoryCount n))
       | None => Raise (KeyError sku)
       end, serve rs st).
Proof.
  destruct (serve_catalog rs st) as [_ Hinv].
  cbn [dispatch]. unfold api_inventory, api_inventory_sku, bind, gets, ret, getitem.
  rewrite Hinv. split; [done|]. by destruct (dict_get (inventory st) sku).
Qed.
